(** * x402chainpay: access grants, payment ledger and wallet connection

    A shallow embedding of [src/server/index.ts] (the simulated payment
    server: session store, payment history, purchase and validation
    handlers) and of [connectWallet] in
    [src/client/src/contexts/WalletContext.tsx], followed by the properties
    proved about them. *)

From stdpp Require Import base gmap strings list pretty sorting.
From Stdlib Require Import ZArith QArith_base.

#[local] Set Warnings "-register-all".
#[local] Open Scope Z_scope.

(* ===================================================================== *)
(** * The server: [src/server/index.ts] *)
(* ===================================================================== *)

Module Server.

(** ** JavaScript values that travel through the handlers *)

(** What [JSON.parse] can produce.  Numbers are kept as their literal: the
    handlers carry them around and never compute with them. *)
Inductive json : Type :=
| JNull
| JBool (b : bool)
| JNumber (lit : string)
| JString (s : string)
| JArray (xs : list json)
| JObject (fields : gmap string json).

(** The only exception the handlers can raise themselves: reading a
    property of [null]. *)
Inductive Thrown : Type :=
| TypeError.

(** [v.k] for the keys the handlers read ([walletAddress],
    [transactionHash], [metadata]).  Reading a property of [null] throws;
    on an object it is the (possibly missing) own property; booleans,
    numbers, strings and arrays have no property of these names. *)
Definition member (v : json) (k : string) : Thrown + option json :=
  match v with
  | JNull => inl TypeError
  | JObject fields => inr (fields !! k)
  | _ => inr None
  end.

(** A [Date] is its time value: an integer number of milliseconds since
    the epoch.  [now > d] and [getTime()] arithmetic act on that number,
    and [toISOString()] prints it, so the views below carry the time value
    itself.  Clock readings are taken to lie, as those of [new Date()] do,
    far enough inside the range of [Date] (8.64e15 ms either side of the
    epoch, below 2^53) for a lifetime added to one to be exact and to
    stay a valid date. *)
Definition Date := Z.

(** ** [interface Session] and [interface PaymentRecord] *)

Inductive SessionType : Type :=
| hour24    (* "24hour" *)
| onetime.  (* "onetime" *)

#[global] Instance SessionType_eq_dec : EqDecision SessionType.
Proof. solve_decision. Defined.

Module Session.
Record t : Type := mk {
  id : string;
  createdAt : Date;
  expiresAt : Date;
  type : SessionType;
  used : option bool;              (* used?: boolean *)
  walletAddress : option json;     (* walletAddress?: string *)
  transactionHash : option json;   (* transactionHash?: string *)
}.

(** [session.used = b] *)
Definition set_used (b : bool) (s : t) : t :=
  {| id := id s; createdAt := createdAt s; expiresAt := expiresAt s;
     type := type s; used := Some b;
     walletAddress := walletAddress s;
     transactionHash := transactionHash s |}.
End Session.
Abbreviation Session := Session.t.

Module PaymentRecord.
Record t : Type := mk {
  id : string;
  type : SessionType;
  amountUsd : Q;
  walletAddress : option json;
  transactionHash : option json;
  metadata : option json;
  createdAt : Date;
}.
End PaymentRecord.
Abbreviation PaymentRecord := PaymentRecord.t.

(** ** The two module-level stores: [sessions] and [payments] *)

(** A JavaScript [Map] is walked in the order its keys were first set;
    [order] keeps that order beside the finite map. *)
Record State : Type := mkState {
  sessions : gmap string Session;
  payments : list PaymentRecord;
  order : list string;
}.

Definition initial : State :=
  {| sessions := ∅; payments := []; order := [] |}.

Definition MAX_PAYMENT_HISTORY : nat := 100.

(** ** Handlers run in a state-and-exception monad *)

Definition M (A : Type) : Type := State → (Thrown + A) * State.

Definition ret {A} (a : A) : M A := fun st => (inr a, st).

Definition bind {A B} (m : M A) (f : A → M B) : M B :=
  fun st =>
    match m st with
    | (inl e, st') => (inl e, st')
    | (inr a, st') => f a st'
    end.

Definition lift {A} (r : Thrown + A) : M A := fun st => (r, st).

#[local] Notation "x <- m ;; k" := (bind m (fun x => k))
  (at level 100, m at next level, right associativity).
#[local] Notation "m ;;; k" := (bind m (fun _ => k))
  (at level 100, right associativity).

(** ** [parsePaymentRequest] *)

(** The request context, as far as the handlers look at it: what
    [c.req.json()] does with the body, either a parsed value or a
    rejection ([None]) when the body is not JSON. *)
Definition Context := option json.

Definition parsePaymentRequest (c : Context) (fallback : json) : json :=
  match c with
  | Some parsed => parsed
  | None => fallback
  end.

(** ** [recordPayment] *)

(** [payments.push(entry)], then one [payments.shift()] when the length
    has passed [MAX_PAYMENT_HISTORY]. *)
Definition push_shift (entry : PaymentRecord) (l : list PaymentRecord)
  : list PaymentRecord :=
  let pushed := l ++ [entry] in
  if Nat.ltb MAX_PAYMENT_HISTORY (length pushed) then tail pushed else pushed.

Definition recordPayment (entry : PaymentRecord) : M unit :=
  fun st =>
    (inr (), {| sessions := sessions st;
                payments := push_shift entry (payments st);
                order := order st |}).

(** The keys in insertion order once [k] has been set: a key already
    there keeps its place, a new one goes last. *)
Definition order_with (k : string) (st : State) : list string :=
  if decide (is_Some (sessions st !! k)) then order st else order st ++ [k].

(** [sessions.set(sessionId, session)] *)
Definition sessions_set (sessionId : string) (session : Session) : M unit :=
  fun st =>
    (inr (), {| sessions := <[sessionId := session]> (sessions st);
                payments := payments st;
                order := order_with sessionId st |}).

(** ** Response bodies *)

(** The [session] / [access] object of a purchase response. *)
Module GrantView.
Record t : Type := mk {
  id : string;
  type : SessionType;
  createdAt : Date;
  expiresAt : option Date;         (* absent from the one-time [access] *)
  validFor : string;
  walletAddress : option json;
  transactionHash : option json;
}.
End GrantView.

(** The [payment] object of a purchase response. *)
Module PaymentView.
Record t : Type := mk {
  amountUsd : Q;
  walletAddress : option json;
  transactionHash : option json;
  metadata : option json;
}.
End PaymentView.

Module PurchaseResponse.
Record t : Type := mk {
  success : bool;
  sessionId : string;
  message : string;
  session : option GrantView.t;    (* key of the 24-hour response *)
  access : option GrantView.t;     (* key of the one-time response *)
  payment : PaymentView.t;
}.
End PurchaseResponse.
Abbreviation PurchaseResponse := PurchaseResponse.t.

(** The [session] object of a validation response. *)
Module SessionView.
Record t : Type := mk {
  id : string;
  type : SessionType;
  createdAt : Date;
  expiresAt : Date;
  used : option bool;              (* only in the invalid response *)
  remainingTime : option Z;        (* only in the valid response *)
  walletAddress : option json;
  transactionHash : option json;
}.
End SessionView.

Module ValidateResponse.
Record t : Type := mk {
  status : Z;                      (* HTTP status of [c.json(body, status)] *)
  valid : bool;
  error : option string;
  session : option SessionView.t;
}.
End ValidateResponse.
Abbreviation ValidateResponse := ValidateResponse.t.

(** ** [app.post("/api/pay/session")] *)

Definition post_pay_session (c : Context) (uuid : string) (clock : Date)
  : M PurchaseResponse :=
  let body := parsePaymentRequest c (JObject ∅) in
  let sessionId := uuid in
  let now := clock in
  let expiresAt := now + 24 * 60 * 60 * 1000 in
  s_walletAddress <- lift (member body "walletAddress") ;;
  s_transactionHash <- lift (member body "transactionHash") ;;
  let session :=
    {| Session.id := sessionId;
       Session.createdAt := now;
       Session.expiresAt := expiresAt;
       Session.type := hour24;
       Session.used := None;
       Session.walletAddress := s_walletAddress;
       Session.transactionHash := s_transactionHash |} in
  sessions_set sessionId session ;;;
  p_walletAddress <- lift (member body "walletAddress") ;;
  p_transactionHash <- lift (member body "transactionHash") ;;
  p_metadata <- lift (member body "metadata") ;;
  recordPayment
    {| PaymentRecord.id := sessionId;
       PaymentRecord.type := hour24;
       PaymentRecord.amountUsd := 1 # 1;
       PaymentRecord.walletAddress := p_walletAddress;
       PaymentRecord.transactionHash := p_transactionHash;
       PaymentRecord.metadata := p_metadata;
       PaymentRecord.createdAt := now |} ;;;
  r_walletAddress <- lift (member body "walletAddress") ;;
  r_transactionHash <- lift (member body "transactionHash") ;;
  r_metadata <- lift (member body "metadata") ;;
  ret {| PurchaseResponse.success := true;
         PurchaseResponse.sessionId := sessionId;
         PurchaseResponse.message := "24-hour access granted!";
         PurchaseResponse.session := Some
           {| GrantView.id := sessionId;
              GrantView.type := hour24;
              GrantView.createdAt := now;
              GrantView.expiresAt := Some expiresAt;
              GrantView.validFor := "24 hours";
              GrantView.walletAddress := Session.walletAddress session;
              GrantView.transactionHash := Session.transactionHash session |};
         PurchaseResponse.access := None;
         PurchaseResponse.payment :=
           {| PaymentView.amountUsd := 1 # 1;
              PaymentView.walletAddress := r_walletAddress;
              PaymentView.transactionHash := r_transactionHash;
              PaymentView.metadata := r_metadata |} |}.

(** ** [app.post("/api/pay/onetime")] *)

Definition post_pay_onetime (c : Context) (uuid : string) (clock : Date)
  : M PurchaseResponse :=
  let body := parsePaymentRequest c (JObject ∅) in
  let sessionId := uuid in
  let now := clock in
  s_walletAddress <- lift (member body "walletAddress") ;;
  s_transactionHash <- lift (member body "transactionHash") ;;
  let session :=
    {| Session.id := sessionId;
       Session.createdAt := now;
       Session.expiresAt := now + 5 * 60 * 1000;
       Session.type := onetime;
       Session.used := Some false;
       Session.walletAddress := s_walletAddress;
       Session.transactionHash := s_transactionHash |} in
  sessions_set sessionId session ;;;
  p_walletAddress <- lift (member body "walletAddress") ;;
  p_transactionHash <- lift (member body "transactionHash") ;;
  p_metadata <- lift (member body "metadata") ;;
  recordPayment
    {| PaymentRecord.id := sessionId;
       PaymentRecord.type := onetime;
       PaymentRecord.amountUsd := 1 # 10;
       PaymentRecord.walletAddress := p_walletAddress;
       PaymentRecord.transactionHash := p_transactionHash;
       PaymentRecord.metadata := p_metadata;
       PaymentRecord.createdAt := now |} ;;;
  r_walletAddress <- lift (member body "walletAddress") ;;
  r_transactionHash <- lift (member body "transactionHash") ;;
  r_metadata <- lift (member body "metadata") ;;
  ret {| PurchaseResponse.success := true;
         PurchaseResponse.sessionId := sessionId;
         PurchaseResponse.message := "One-time access granted!";
         PurchaseResponse.session := None;
         PurchaseResponse.access := Some
           {| GrantView.id := sessionId;
              GrantView.type := onetime;
              GrantView.createdAt := now;
              GrantView.expiresAt := None;
              GrantView.validFor := "5 minutes (single use)";
              GrantView.walletAddress := Session.walletAddress session;
              GrantView.transactionHash := Session.transactionHash session |};
         PurchaseResponse.payment :=
           {| PaymentView.amountUsd := 1 # 10;
              PaymentView.walletAddress := r_walletAddress;
              PaymentView.transactionHash := r_transactionHash;
              PaymentView.metadata := r_metadata |} |}.

(** ** [app.get("/api/session/:sessionId")] *)

(** Truthiness of the optional [used] flag. *)
Definition truthy (u : option bool) : bool :=
  match u with
  | Some true => true
  | _ => false
  end.

Definition is_onetime (t : SessionType) : bool :=
  match t with
  | onetime => true
  | hour24 => false
  end.

(** The handler never throws, so it is written as a plain state
    transformer: the response and the store after the call. *)
Definition get_session (clock : Date) (sessionId : string) (st : State)
  : ValidateResponse * State :=
  match sessions st !! sessionId with
  | None =>
      ({| ValidateResponse.status := 404;
          ValidateResponse.valid := false;
          ValidateResponse.error := Some "Session not found";
          ValidateResponse.session := None |}, st)
  | Some session =>
      let now := clock in
      let isExpired := Session.expiresAt session <? now in
      let isUsed :=
        is_onetime (Session.type session) && truthy (Session.used session) in
      if isExpired || isUsed then
        ({| ValidateResponse.status := 200;
            ValidateResponse.valid := false;
            ValidateResponse.error := Some
              (if isExpired then "Session expired"
               else "One-time access already used");
            ValidateResponse.session := Some
              {| SessionView.id := Session.id session;
                 SessionView.type := Session.type session;
                 SessionView.createdAt := Session.createdAt session;
                 SessionView.expiresAt := Session.expiresAt session;
                 SessionView.used := Session.used session;
                 SessionView.remainingTime := None;
                 SessionView.walletAddress := Session.walletAddress session;
                 SessionView.transactionHash :=
                   Session.transactionHash session |} |}, st)
      else
        (* Mark one-time sessions as used *)
        let st' :=
          if is_onetime (Session.type session) then
            {| sessions :=
                 <[sessionId := Session.set_used true session]> (sessions st);
               payments := payments st;
               order := order st |}   (* the key is there already *)
          else st in
        ({| ValidateResponse.status := 200;
            ValidateResponse.valid := true;
            ValidateResponse.error := None;
            ValidateResponse.session := Some
              {| SessionView.id := Session.id session;
                 SessionView.type := Session.type session;
                 SessionView.createdAt := Session.createdAt session;
                 SessionView.expiresAt := Session.expiresAt session;
                 SessionView.used := None;
                 SessionView.remainingTime :=
                   Some (Session.expiresAt session - now);
                 SessionView.walletAddress := Session.walletAddress session;
                 SessionView.transactionHash :=
                   Session.transactionHash session |} |}, st')
  end.

(** ** [app.get("/api/sessions")] and [app.get("/api/payments")] *)

Module ActiveView.
Record t : Type := mk {
  id : string;
  type : SessionType;
  createdAt : Date;
  expiresAt : Date;
  walletAddress : option json;
  transactionHash : option json;
}.
End ActiveView.

(** [Array.from(sessions.values())] walks the map in insertion order.
    The filter callback reads the clock once per session: [clock i] is
    the reading taken for the [i]-th value. *)
Definition get_sessions (clock : nat → Date) (st : State)
  : list ActiveView.t :=
  let values := omap (fun k => sessions st !! k) (order st) in
  let keep (p : Date * Session) : bool :=
    let isExpired := Session.expiresAt p.2 <? p.1 in
    let isUsed :=
      is_onetime (Session.type p.2) && truthy (Session.used p.2) in
    negb isExpired && negb isUsed in
  (fun p : Date * Session =>
     {| ActiveView.id := Session.id p.2;
        ActiveView.type := Session.type p.2;
        ActiveView.createdAt := Session.createdAt p.2;
        ActiveView.expiresAt := Session.expiresAt p.2;
        ActiveView.walletAddress := Session.walletAddress p.2;
        ActiveView.transactionHash := Session.transactionHash p.2 |})
  <$> List.filter keep (imap (fun i session => (clock i, session)) values).

(** [sort((a, b) => b.createdAt.getTime() - a.createdAt.getTime())]: a
    stable sort, latest first. *)
Fixpoint insert_desc (p : PaymentRecord) (l : list PaymentRecord)
  : list PaymentRecord :=
  match l with
  | [] => [p]
  | q :: l' =>
      if PaymentRecord.createdAt p <? PaymentRecord.createdAt q
      then q :: insert_desc p l'
      else p :: q :: l'
  end.

Definition sort_desc (l : list PaymentRecord) : list PaymentRecord :=
  foldr insert_desc [] l.

(** The handler sorts a copy and maps each record to a fresh object. *)
Definition get_payments (st : State) : list PaymentRecord :=
  take 25 (sort_desc (payments st)).

(** ** The application: one request handled to completion *)

(** [process.env] defaults read at start-up. *)
Record Config : Type := mkConfig {
  network : string;
  payTo : string;
}.

Module PaymentOption.
Record t : Type := mk {
  name : string;
  endpoint : string;
  price : string;
  description : string;
}.
End PaymentOption.

Definition payment_options : list PaymentOption.t :=
  [ {| PaymentOption.name := "24-Hour Access";
       PaymentOption.endpoint := "/api/pay/session";
       PaymentOption.price := "$1.00";
       PaymentOption.description :=
         "Get a session ID for 24 hours of unlimited access" |};
    {| PaymentOption.name := "One-Time Access";
       PaymentOption.endpoint := "/api/pay/onetime";
       PaymentOption.price := "$0.10";
       PaymentOption.description :=
         "Single use payment for immediate access" |} ].

Inductive Request : Type :=
| GET_health
| GET_payment_options
| POST_pay_session (c : Context)
| POST_pay_onetime (c : Context)
| GET_session (sessionId : string)
| GET_sessions
| GET_payments.

Inductive Response : Type :=
| Health (status message net pay mode : string)
| PaymentOptions (options : list PaymentOption.t)
| Purchase (r : PurchaseResponse)
| Validation (r : ValidateResponse)
| Sessions (l : list ActiveView.t)
| Payments (l : list PaymentRecord)
| InternalServerError.   (* the framework's answer to a throwing handler *)

(** What a request takes from outside the process: the identifier
    [uuidv4()] returns and the readings of [new Date()]. *)
Record Env : Type := mkEnv {
  uuidv4 : string;
  clock : nat → Date;
}.

Definition answer {A} (wrap : A → Response) (m : M A) (st : State)
  : Response * State :=
  match m st with
  | (inr a, st') => (wrap a, st')
  | (inl _, st') => (InternalServerError, st')
  end.

Definition handle (cfg : Config) (env : Env) (req : Request) (st : State)
  : Response * State :=
  match req with
  | GET_health =>
      (Health "ok" "Server is running" (network cfg) (payTo cfg)
         "simulated-payments", st)
  | GET_payment_options => (PaymentOptions payment_options, st)
  | POST_pay_session c =>
      answer Purchase (post_pay_session c (uuidv4 env) (clock env 0%nat)) st
  | POST_pay_onetime c =>
      answer Purchase (post_pay_onetime c (uuidv4 env) (clock env 0%nat)) st
  | GET_session sessionId =>
      let (r, st') := get_session (clock env 0%nat) sessionId st in
      (Validation r, st')
  | GET_sessions => (Sessions (get_sessions (clock env) st), st)
  | GET_payments => (Payments (get_payments st), st)
  end.

(** ** Vocabulary of the specification *)

(** [lifetime(tier)] in milliseconds: 24 hours and 5 minutes. *)
Definition lifetime (t : SessionType) : Z :=
  match t with
  | hour24 => 24 * 60 * 60 * 1000
  | onetime => 5 * 60 * 1000
  end.

Inductive ValidationOutcome : Type :=
| NotFound
| Expired
| AlreadyConsumed
| Valid.

#[global] Instance ValidationOutcome_eq_dec : EqDecision ValidationOutcome.
Proof. solve_decision. Defined.

(** How a validation response reads as an outcome. *)
Definition outcome (r : ValidateResponse) : option ValidationOutcome :=
  if ValidateResponse.valid r then Some Valid
  else
    match ValidateResponse.error r with
    | Some e =>
        if String.eqb e "Session not found" then Some NotFound
        else if String.eqb e "Session expired" then Some Expired
        else if String.eqb e "One-time access already used"
             then Some AlreadyConsumed
        else None
    | None => None
    end.

(** A run of validation calls, each with its clock reading and the id it
    presents; the responses are returned in call order. *)
Fixpoint validate_all (calls : list (Date * string)) (st : State)
  : list ValidateResponse * State :=
  match calls with
  | [] => ([], st)
  | (now, sessionId) :: rest =>
      let (r, st1) := get_session now sessionId st in
      let (rs, st2) := validate_all rest st1 in
      (r :: rs, st2)
  end.

(** The calls of a run that presented [sessionId] and were answered
    [valid: true]. *)
Definition valid_on (sessionId : string)
  (p : (Date * string) * ValidateResponse) : bool :=
  String.eqb p.1.2 sessionId && ValidateResponse.valid p.2.

Definition valid_calls (sessionId : string) (calls : list (Date * string))
  (st : State) : nat :=
  length (List.filter (valid_on sessionId)
            (zip calls (validate_all calls st).1)).

(** [purchase(tier, ...)]: the handler that sells the tier. *)
Definition purchase (t : SessionType)
  : Context → string → Date → M PurchaseResponse :=
  match t with
  | hour24 => post_pay_session
  | onetime => post_pay_onetime
  end.

(** Any run of requests against the application. *)
Fixpoint handle_all (cfg : Config) (reqs : list (Env * Request)) (st : State)
  : State :=
  match reqs with
  | [] => st
  | (env, req) :: rest => handle_all cfg rest (handle cfg env req st).2
  end.

(** The grant under [sessionId] is a used one-time grant expiring at [e]. *)
Definition consumed_at (sessionId : string) (e : Date) (st : State) : Prop :=
  ∃ s, sessions st !! sessionId = Some s
       ∧ Session.type s = onetime
       ∧ truthy (Session.used s) = true
       ∧ Session.expiresAt s = e.

(** Every grant of a running server lives exactly its tier's lifetime. *)
Definition lifetimes_exact (st : State) : Prop :=
  ∀ k s, sessions st !! k = Some s →
    Session.expiresAt s - Session.createdAt s = lifetime (Session.type s).

(** ** Further vocabulary, for the listing and history endpoints *)

(** The test of the filter in [app.get("/api/sessions")], and the negation
    of the refusal test of the validation handler: not expired at [now]
    and not a used one-time grant. *)
Definition is_active (now : Date) (s : Session) : bool :=
  negb (Session.expiresAt s <? now)
  && negb (is_onetime (Session.type s) && truthy (Session.used s)).

(** The object the listing maps a session to. *)
Definition active_view (s : Session) : ActiveView.t :=
  {| ActiveView.id := Session.id s;
     ActiveView.type := Session.type s;
     ActiveView.createdAt := Session.createdAt s;
     ActiveView.expiresAt := Session.expiresAt s;
     ActiveView.walletAddress := Session.walletAddress s;
     ActiveView.transactionHash := Session.transactionHash s |}.

(** [recordPayment] called on each entry in turn. *)
Definition record_all (entries l : list PaymentRecord) : list PaymentRecord :=
  foldl (fun acc entry => push_shift entry acc) l entries.

(** The price written into the history and the response. *)
Definition amount (t : SessionType) : Q :=
  match t with
  | hour24 => 1 # 1
  | onetime => 1 # 10
  end.

(** The body is the JSON literal [null]. *)
Definition is_null_body (c : Context) : bool :=
  match c with
  | Some JNull => true
  | _ => false
  end.

(** The ids handed out by the purchases of a run that went through, in
    order. *)
Definition purchased (reqs : list (Env * Request)) : list string :=
  flat_map
    (fun p : Env * Request =>
       match p.2 with
       | POST_pay_session c | POST_pay_onetime c =>
           if is_null_body c then [] else [uuidv4 p.1]
       | _ => []
       end) reqs.

(** Every grant is stored under its own id; 24-hour grants carry no
    [used] flag and one-time grants always do. *)
Definition well_formed (st : State) : Prop :=
  ∀ k s, sessions st !! k = Some s →
    Session.id s = k
    ∧ match Session.type s with
      | hour24 => Session.used s = None
      | onetime => is_Some (Session.used s)
      end.

(** The grant and the history entry a purchase of tier [t] writes, from
    the id, the clock reading and what the body carries. *)
Definition grant_of (t : SessionType) (uuid : string) (now : Date)
  (wallet tx : option json) : Session :=
  {| Session.id := uuid;
     Session.createdAt := now;
     Session.expiresAt := now + lifetime t;
     Session.type := t;
     Session.used := match t with hour24 => None | onetime => Some false end;
     Session.walletAddress := wallet;
     Session.transactionHash := tx |}.

Definition entry_of (t : SessionType) (uuid : string) (now : Date)
  (wallet tx meta : option json) : PaymentRecord :=
  {| PaymentRecord.id := uuid;
     PaymentRecord.type := t;
     PaymentRecord.amountUsd := amount t;
     PaymentRecord.walletAddress := wallet;
     PaymentRecord.transactionHash := tx;
     PaymentRecord.metadata := meta;
     PaymentRecord.createdAt := now |}.

(** [body.k] once the body has been parsed leniently and is not [null]. *)
Definition body_field (c : Context) (k : string) : option json :=
  match parsePaymentRequest c (JObject ∅) with
  | JObject fields => fields !! k
  | _ => None
  end.

(** The newest [n] elements of a list that grows at its end. *)
Definition newest {A} (n : nat) (l : list A) : list A :=
  drop (length l - n) l.

(** [a] is shown before [b] by the history endpoint unless [b] is
    strictly later. *)
Definition later_or_same (a b : PaymentRecord) : Prop :=
  PaymentRecord.createdAt b ≤ PaymentRecord.createdAt a.

(** [order] lists, each once, exactly the keys of [sessions]. *)
Definition ordered (st : State) : Prop :=
  NoDup (order st) ∧ ∀ k, k ∈ order st ↔ is_Some (sessions st !! k).

(** A body carrying a wallet address. *)
Definition sample_body : json :=
  JObject {[ "walletAddress" := JString "0xABC" ]}.

(** ** Sample data, for concrete runs *)

(** A one-time grant bought at time 0, not yet used. *)
Definition sample_onetime : Session :=
  {| Session.id := "S";
     Session.createdAt := 0;
     Session.expiresAt := 300000;
     Session.type := onetime;
     Session.used := Some false;
     Session.walletAddress := None;
     Session.transactionHash := None |}.

Definition sample_store : State :=
  {| sessions := {[ "S" := sample_onetime ]}; payments := [];
     order := ["S"] |}.

(** The same grant after its one use. *)
Definition sample_used_store : State :=
  {| sessions := {[ "S" := Session.set_used true sample_onetime ]};
     payments := []; order := ["S"] |}.

(** A 24-hour grant bought at time 0. *)
Definition sample_timed : Session :=
  {| Session.id := "T";
     Session.createdAt := 0;
     Session.expiresAt := 86400000;
     Session.type := hour24;
     Session.used := None;
     Session.walletAddress := None;
     Session.transactionHash := None |}.

Definition sample_timed_store : State :=
  {| sessions := {[ "T" := sample_timed ]}; payments := [];
     order := ["T"] |}.

Definition sample_payment : PaymentRecord :=
  {| PaymentRecord.id := "S";
     PaymentRecord.type := onetime;
     PaymentRecord.amountUsd := 1 # 10;
     PaymentRecord.walletAddress := None;
     PaymentRecord.transactionHash := None;
     PaymentRecord.metadata := None;
     PaymentRecord.createdAt := 0 |}.

Definition sample_config : Config :=
  {| network := "monad-testnet";
     payTo := "0x000000000000000000000000000000000000dEaD" |}.

Definition sample_env : Env :=
  {| uuidv4 := "S"; clock := fun _ => 0 |}.

(** Two one-time purchases at time 0: id ["b"] first, then id ["a"]. *)
Definition sample_two_purchases : list (Env * Request) :=
  [ ({| uuidv4 := "b"; clock := fun _ => 0 |}, POST_pay_onetime None);
    ({| uuidv4 := "a"; clock := fun _ => 0 |}, POST_pay_onetime None) ].

(** A listing whose first clock reading is 0 and whose later ones fall
    after the five minutes of a one-time grant bought at 0. *)
Definition late_after_first (i : nat) : Date :=
  match i with
  | O => 0
  | S _ => 400000
  end.

End Server.

(* ===================================================================== *)
(** * The client: [connectWallet] in [WalletContext.tsx] *)
(* ===================================================================== *)

Module WalletContext.

Definition Hex := string.

(** An injected [EthereumProvider] object, by identity. *)
Definition Provider := nat.

(** [window.ethereum]: absent, an array of providers, or one provider
    that may carry a [providers] array of its own. *)
Inductive Ethereum : Type :=
| Undefined
| ProviderArray (ps : list Provider)
| ProviderObject (p : Provider) (providers : option (list Provider)).

(** The host page: the injected global, and the text the JavaScript
    engine puts in the [TypeError] raised by [ethereum.request] when
    [ethereum] is [undefined] (the first element of an empty array). *)
Record Host : Type := mkHost {
  window_ethereum : Ethereum;
  undefined_request_message : string;
}.

(** Modelled from the spec: [monadTestnet], imported from
    [../config/chains], which is not among the sources.  The connector
    only passes it on to the wallet client, so it stays an opaque
    constant. *)
Inductive Chain : Type :=
| monadTestnet.

(** The result of [createWalletClient({ account, chain, transport:
    custom(ethereum) })]. *)
Record WalletClient : Type := mkWalletClient {
  account : Hex;
  chain : Chain;
  transport : Provider;
}.

Record NativeCurrency : Type := mkNativeCurrency {
  name : string;
  symbol : string;
  decimals : Z;
}.

Record AddEthereumChainParameter : Type := mkAddEthereumChainParameter {
  chainId : string;
  chainName : string;
  nativeCurrency : NativeCurrency;
  rpcUrls : list string;
  blockExplorerUrls : list string;
}.

(** The requests the connector sends, indexed by the type their result is
    cast to. *)
Inductive Rpc : Type → Type :=
| eth_requestAccounts : Rpc (list string)
| eth_chainId : Rpc string
| wallet_switchEthereumChain (chainId : string) : Rpc unit
| wallet_addEthereumChain (params : AddEthereumChainParameter) : Rpc unit.

(** What a [catch] clause can receive.

    - [ErrorObject code message]: an object with its [code], when that is
      an integer, and its [message], when that is a string; a code of any
      other kind compares unequal to the constants of the connector, as a
      missing one does, and a [message] that is [undefined] or [null]
      counts as missing.  A number or a boolean has neither.
    - [StringValue s]: a bare string.
    - [Nullish complaint]: [null] or [undefined]; reading its [code]
      raises a [TypeError] whose message is [complaint].
    - [OddMessage code truthy finds text]: an object whose [message] is
      something else than a string, [undefined] or [null]: [truthy] is its
      truthiness, [finds needle] is what [message.includes(needle)] does
      - a [TypeError] with the given message where there is no such
      method, else the truthiness of the value returned - and [text] is
      its conversion to a string. *)
Inductive Thrown : Type :=
| ErrorObject (code : option Z) (message : option string)
| StringValue (s : string)
| Nullish (complaint : string)
| OddMessage (code : option Z) (truthy : bool)
    (finds : string → string + bool) (text : string).

(** [new Error(message)] *)
Definition new_Error (message : string) : Thrown :=
  ErrorObject None (Some message).

(** The [TypeError] the engine raises, with its message. *)
Definition type_error (complaint : string) : Thrown :=
  ErrorObject None (Some complaint).

Definition code_of (e : Thrown) : option Z :=
  match e with
  | ErrorObject code _ => code
  | OddMessage code _ _ _ => code
  | StringValue _ | Nullish _ => None
  end.

(** The message, when it is a string. *)
Definition message_of (e : Thrown) : option string :=
  match e with
  | ErrorObject _ message => message
  | StringValue _ | Nullish _ | OddMessage _ _ _ _ => None
  end.

(** Reading [e.code] in a [catch] clause: it throws on [null] and
    [undefined]. *)
Definition read_code (e : Thrown) : Thrown + option Z :=
  match e with
  | Nullish complaint => inl (type_error complaint)
  | _ => inr (code_of e)
  end.

(** [e.code === n] *)
Definition code_is (n : Z) (e : Thrown) : bool :=
  match code_of e with
  | Some c => c =? n
  | None => false
  end.

(** [hay.includes(needle)] *)
Fixpoint includes (needle hay : string) : bool :=
  String.prefix needle hay ||
  match hay with
  | EmptyString => false
  | String _ rest => includes needle rest
  end.

(** [e.message?.includes(needle)], in a condition *)
Definition message_includes (needle : string) (e : Thrown) : bool :=
  match message_of e with
  | Some m => includes needle m
  | None => false
  end.

(** [e.message], in a condition and, where it holds, in a template: a
    non-empty string, or the text of a truthy value of another kind *)
Definition truthy_message (e : Thrown) : option string :=
  match e with
  | OddMessage _ true _ text => Some text
  | OddMessage _ false _ _ => None
  | _ =>
      match message_of e with
      | Some EmptyString => None
      | Some m => Some m
      | None => None
      end
  end.

(** [e.message?.includes(needle)], in a condition, whatever the message
    is: calling a missing method throws. *)
Definition probe_message (needle : string) (e : Thrown) : Thrown + bool :=
  match e with
  | OddMessage _ _ finds _ =>
      match finds needle with
      | inl complaint => inl (type_error complaint)
      | inr found => inr found
      end
  | _ => inr (message_includes needle e)
  end.

(** [e.code === 4001 || e.message?.includes('rejected') ||
    e.message?.includes('denied')], evaluated left to right: the value
    of the test, or what evaluating it throws. *)
Definition user_rejection (e : Thrown) : Thrown + bool :=
  match read_code e with
  | inl thrown => inl thrown
  | inr _ =>
      if code_is 4001 e then inr true
      else
        match probe_message "rejected" e with
        | inl thrown => inl thrown
        | inr true => inr true
        | inr false => probe_message "denied" e
        end
  end.

(** The effects of the connector other than provider requests. *)
Inductive Action : Type :=
| console_log (text : string)
| console_warn (text : string)
| console_error (text : string)
| setError (e : option string)
| setIsConnecting (b : bool)
| setWalletClient (c : option WalletClient)
| setAddress (a : option Hex)
| setIsConnected (b : bool).

(** ** Asynchronous programs

    The body of an [async] function: it returns, throws, performs an
    action, or awaits a provider request and resumes with the settlement
    of that promise. *)
Inductive Prog (A : Type) : Type :=
| Ret (a : A)
| Throw (e : Thrown)
| Act (a : Action) (k : Prog A)
| Await {X : Type} (p : Provider) (r : Rpc X) (k : Thrown + X → Prog A).
Arguments Ret {A} a.
Arguments Throw {A} e.
Arguments Act {A} a k.
Arguments Await {A X} p r k.

Fixpoint bind {A B} (m : Prog A) (f : A → Prog B) : Prog B :=
  match m with
  | Ret a => f a
  | Throw e => Throw e
  | Act a k => Act a (bind k f)
  | Await p r k => Await p r (fun o => bind (k o) f)
  end.

(** [try { m } catch (e) { h e }] *)
Fixpoint try_catch {A} (m : Prog A) (h : Thrown → Prog A) : Prog A :=
  match m with
  | Ret a => Ret a
  | Throw e => h e
  | Act a k => Act a (try_catch k h)
  | Await p r k => Await p r (fun o => try_catch (k o) h)
  end.

(** [try { m } finally { fin }] *)
Fixpoint finally {A} (m : Prog A) (fin : Prog unit) : Prog A :=
  match m with
  | Ret a => bind fin (fun _ => Ret a)
  | Throw e => bind fin (fun _ => Throw e)
  | Act a k => Act a (finally k fin)
  | Await p r k => Await p r (fun o => finally (k o) fin)
  end.

Definition act (a : Action) : Prog unit := Act a (Ret ()).

#[local] Notation "x <- m ;; k" := (bind m (fun x => k))
  (at level 100, m at next level, right associativity).
#[local] Notation "m ;;; k" := (bind m (fun _ => k))
  (at level 100, right associativity).

(** [await ethereum.request({ method, params })]: a rejection is thrown
    at the [await]; calling [request] on [undefined] throws a
    [TypeError] before anything is sent. *)
Definition request {X} (h : Host) (ethereum : option Provider) (r : Rpc X)
  : Prog X :=
  match ethereum with
  | None => Throw (ErrorObject None (Some (undefined_request_message h)))
  | Some p =>
      Await p r (fun o =>
        match o with
        | inl e => Throw e
        | inr x => Ret x
        end)
  end.

(** ** [connectWallet] *)

Definition monadTestnetChainIdHex : string := "0x279F".

Definition monadTestnetParams : AddEthereumChainParameter :=
  {| chainId := monadTestnetChainIdHex;
     chainName := "Monad Testnet";
     nativeCurrency :=
       {| name := "Monad"; symbol := "MON"; decimals := 18 |};
     rpcUrls := ["https://testnet-rpc.monad.xyz"];
     blockExplorerUrls := ["https://testnet.monadscan.com"] |}.

(** The inner [try] around [eth_requestAccounts]. *)
Definition requestAccounts (h : Host) (ethereum : option Provider)
  : Prog (list string) :=
  try_catch (request h ethereum eth_requestAccounts)
    (fun requestError =>
       act (console_error "请求账户访问失败:") ;;;
       match user_rejection requestError with
       | inl thrown => Throw thrown
       | inr true => Throw (new_Error "用户取消了连接请求")
       | inr false =>
           match truthy_message requestError with
           | Some m => Throw (new_Error ("连接失败: " +:+ m))
           | None => Throw (new_Error "无法连接到钱包，请确保钱包扩展已启用")
           end
       end).

(** The inner [try] around [eth_chainId]. *)
Definition readChainId (h : Host) (ethereum : option Provider)
  : Prog string :=
  try_catch (request h ethereum eth_chainId)
    (fun chainError =>
       act (console_error "获取链ID失败:") ;;;
       Throw (new_Error "无法获取当前网络信息")).

(** The [if (chainId !== monadTestnetChainIdHex)] block. *)
Definition ensureNetwork (h : Host) (ethereum : option Provider)
  (chainId : string) : Prog unit :=
  if negb (String.eqb chainId monadTestnetChainIdHex) then
    try_catch
      (request h ethereum (wallet_switchEthereumChain monadTestnetChainIdHex))
      (fun switchError =>
         match read_code switchError with
         | inl thrown => Throw thrown
         | inr _ =>
             if code_is 4902 switchError then
               try_catch
                 (request h ethereum
                    (wallet_addEthereumChain monadTestnetParams))
                 (fun addError =>
                    act (console_error "添加网络失败:") ;;;
                    match read_code addError with
                    | inl thrown => Throw thrown
                    | inr _ =>
                        if code_is 4001 addError
                        then Throw (new_Error "用户取消了添加网络请求")
                        else Throw (new_Error
                                      "无法添加 Monad Testnet 网络到钱包")
                    end)
             else if code_is 4001 switchError then
               Throw (new_Error "用户取消了切换网络请求")
             else
               act (console_error "切换网络失败:") ;;;
               Throw (new_Error ("切换网络失败: " +:+
                        match truthy_message switchError with
                        | Some m => m
                        | None => "未知错误"
                        end))
         end)
  else Ret ().

(** The [try] body once [ethereum] has been picked. *)
Definition connectWith (h : Host) (ethereum : option Provider)
  : Prog unit :=
  accounts <- requestAccounts h ethereum ;;
  act (console_log "accounts") ;;;
  match accounts with
  | [] => Throw (new_Error "未找到账户，请在钱包中创建或导入账户")
  | first :: _ =>
      chainId <- readChainId h ethereum ;;
      ensureNetwork h ethereum chainId ;;;
      match ethereum with
      | None => Ret ()     (* not reached: the requests above have thrown *)
      | Some p =>
          let client :=
            {| account := first; chain := monadTestnet; transport := p |} in
          act (setWalletClient (Some client)) ;;;
          act (setAddress (Some first)) ;;;
          act (setIsConnected true)
      end
  end.

(** The message the outer [catch] shows. *)
Definition errorMessage (err : Thrown) : string :=
  match truthy_message err with
  | Some m => m
  | None =>
      match code_of err with
      | Some 0 | None =>
          match err with
          | StringValue s => s
          | _ => "连接钱包失败"
          end
      | Some 4001 => "用户拒绝了连接请求"
      | Some (-32002) => "连接请求已在进行中，请检查钱包扩展"
      | Some 4902 => "网络未添加到钱包"
      | Some c => "连接失败 (错误代码: " +:+ pretty c +:+ ")"
      end
  end.

Definition connectWallet (h : Host) : Prog unit :=
  act (console_log "connectWallet") ;;;
  act (setError None) ;;;
  act (setIsConnecting true) ;;;
  finally
    (try_catch
       match window_ethereum h with
       | Undefined => Throw (new_Error "请安装 MetaMask 或其他以太坊钱包扩展")
       | ProviderArray ps =>
           act (console_warn "检测到多个钱包扩展，使用第一个") ;;;
           connectWith h (head ps)
       | ProviderObject _ (Some ps) =>
           act (console_warn "检测到多个钱包扩展，使用第一个") ;;;
           connectWith h (head ps)
       | ProviderObject p None => connectWith h (Some p)
       end
       (fun err =>
          act (console_error "钱包连接错误详情:") ;;;
          act (setError (Some (errorMessage err)))))
    (act (setIsConnecting false)).

Definition disconnectWallet : Prog unit :=
  act (setWalletClient None) ;;;
  act (setAddress None) ;;;
  act (setIsConnected false) ;;;
  act (setError None).

(** ** The React state behind the setters *)

Record WalletState : Type := mkWalletState {
  isConnected : bool;
  address : option Hex;
  walletClient : option WalletClient;
  error : option string;
  isConnecting : bool;
}.

(** The [useState] initial values. *)
Definition disconnected : WalletState :=
  {| isConnected := false; address := None; walletClient := None;
     error := None; isConnecting := false |}.

Definition apply (a : Action) (s : WalletState) : WalletState :=
  match a with
  | console_log _ | console_warn _ | console_error _ => s
  | setError e =>
      {| isConnected := isConnected s; address := address s;
         walletClient := walletClient s; error := e;
         isConnecting := isConnecting s |}
  | setIsConnecting b =>
      {| isConnected := isConnected s; address := address s;
         walletClient := walletClient s; error := error s;
         isConnecting := b |}
  | setWalletClient c =>
      {| isConnected := isConnected s; address := address s;
         walletClient := c; error := error s;
         isConnecting := isConnecting s |}
  | setAddress a =>
      {| isConnected := isConnected s; address := a;
         walletClient := walletClient s; error := error s;
         isConnecting := isConnecting s |}
  | setIsConnected b =>
      {| isConnected := b; address := address s;
         walletClient := walletClient s; error := error s;
         isConnecting := isConnecting s |}
  end.

(** ** Running a program *)

(** What can be observed of a run, in order: the actions performed and
    the requests sent to a provider. *)
Inductive Event : Type :=
| Did (a : Action)
| Requested {X : Type} (p : Provider) (r : Rpc X).

(** How a provider settles a request. *)
Definition Reply : Type := ∀ X, Rpc X → Thrown + X.

(** A provider (and the user behind it) may answer by everything that
    happened so far. *)
Definition Oracle : Type := list Event → Provider → Reply.

(** One call run to completion against an oracle: the state, the events
    and how the call ended. *)
Fixpoint run {A} (o : Oracle) (m : Prog A) (s : WalletState)
  (tr : list Event) : WalletState * list Event * (Thrown + A) :=
  match m with
  | Ret a => (s, tr, inr a)
  | Throw e => (s, tr, inl e)
  | Act a k => run o k (apply a s) (tr ++ [Did a])
  | Await p r k =>
      let tr' := tr ++ [Requested p r] in
      run o (k (o tr' p _ r)) s tr'
  end.

(** A call suspended at an [await], with the request it waits for. *)
Inductive Suspended : Type :=
| Waiting {X : Type} (p : Provider) (r : Rpc X) (k : Thrown + X → Prog unit).

(** The synchronous stretch of a call: up to its next [await] or its end. *)
Fixpoint advance (m : Prog unit) (s : WalletState) (tr : list Event)
  : WalletState * list Event * option Suspended :=
  match m with
  | Ret _ => (s, tr, None)
  | Throw _ => (s, tr, None)
  | Act a k => advance k (apply a s) (tr ++ [Did a])
  | Await p r k => (s, tr ++ [Requested p r], Some (Waiting p r k))
  end.

(** The page: the shared state, the events so far, and the calls of
    [connectWallet] that are suspended. *)
Record System : Type := mkSystem {
  ui : WalletState;
  trace : list Event;
  inflight : list Suspended;
}.

Definition fresh : System :=
  {| ui := disconnected; trace := []; inflight := [] |}.

(** Something calls [connectWallet()]. *)
Definition call (h : Host) (sys : System) : System :=
  let '(s, tr, w) := advance (connectWallet h) (ui sys) (trace sys) in
  {| ui := s; trace := tr; inflight := inflight sys ++ option_list w |}.

(** The promise the [i]-th suspended call waits for is settled, and that
    call runs on to its next [await]. *)
Definition settle (i : nat) (reply : Reply) (sys : System) : System :=
  match inflight sys !! i with
  | None => sys
  | Some (Waiting p r k) =>
      let '(s, tr, w) := advance (k (reply _ r)) (ui sys) (trace sys) in
      {| ui := s; trace := tr;
         inflight := take i (inflight sys) ++ option_list w
                     ++ drop (S i) (inflight sys) |}
  end.

(** ** Reading traces *)

Definition is_authorization (e : Event) : bool :=
  match e with
  | @Requested _ _ eth_requestAccounts => true
  | _ => false
  end.

Definition is_switch (e : Event) : bool :=
  match e with
  | @Requested _ _ (wallet_switchEthereumChain _) => true
  | _ => false
  end.

Definition is_add (e : Event) : bool :=
  match e with
  | @Requested _ _ (wallet_addEthereumChain _) => true
  | _ => false
  end.

Definition is_request (e : Event) : bool :=
  match e with
  | Requested _ _ => true
  | Did _ => false
  end.

Definition count (f : Event → bool) (tr : list Event) : nat :=
  length (List.filter f tr).

(** A switch request sent after a network registration request. *)
Fixpoint switch_after_add (tr : list Event) : bool :=
  match tr with
  | [] => false
  | e :: rest =>
      (is_add e && existsb is_switch rest) || switch_after_add rest
  end.

(** The state passed through [isConnecting = true] on the way. *)
Definition entered_connecting (tr : list Event) : bool :=
  existsb (fun e => match e with
                    | Did (setIsConnecting true) => true
                    | _ => false
                    end) tr.

(** The provider [connectWallet] talks to, when there is one. *)
Definition selected (e : Ethereum) : option Provider :=
  match e with
  | Undefined => None
  | ProviderArray ps => head ps
  | ProviderObject _ (Some ps) => head ps
  | ProviderObject p None => Some p
  end.

(** ** [checkConnection], run once on mount *)

(** [eth_accounts] is the only request of [checkConnection], so the
    function is given by what it does up to that [await] and by how it
    goes on from the settlement. *)
Inductive CheckStart : Type :=
| CheckReturns (m : Prog unit)    (* ends without asking anything *)
| CheckAsks (p : Provider).       (* awaits [eth_accounts] from [p] *)

(** [ethereum.request] on a picked provider; on [undefined] the
    [TypeError] is caught and logged. *)
Definition checkOn (ethereum : option Provider) : CheckStart :=
  match ethereum with
  | None => CheckReturns (act (console_error "检查钱包连接失败:"))
  | Some p => CheckAsks p
  end.

Definition checkConnection_start (h : Host) : CheckStart :=
  match window_ethereum h with
  | Undefined => CheckReturns (Ret ())
  | ProviderArray ps => checkOn (head ps)
  | ProviderObject _ (Some ps) => checkOn (head ps)
  | ProviderObject p None => checkOn (Some p)
  end.

Definition checkConnection_resume (p : Provider) (o : Thrown + list string)
  : Prog unit :=
  match o with
  | inl _ => act (console_error "检查钱包连接失败:")
  | inr [] => Ret ()
  | inr (first :: _) =>
      let client :=
        {| account := first; chain := monadTestnet; transport := p |} in
      act (setWalletClient (Some client)) ;;;
      act (setAddress (Some first)) ;;;
      act (setIsConnected true)
  end.

(** ** [handleAccountsChanged] *)

(** The listener registered on the picked provider [ethereum].  [address]
    is the state value it closes over; the effect that registers it runs
    again whenever [address] changes. *)
Definition handleAccountsChanged (ethereum : Provider)
  (address : option Hex) (accounts : list string) : Prog unit :=
  match accounts with
  | [] => disconnectWallet
  | first :: _ =>
      if decide (Some first = address) then Ret ()
      else
        let client :=
          {| account := first; chain := monadTestnet;
             transport := ethereum |} in
        act (setWalletClient (Some client)) ;;;
        act (setAddress (Some first)) ;;;
        act (setIsConnected true)
  end.

(** ** Further vocabulary *)

(** The state once a program that awaits nothing has run. *)
Definition after (m : Prog unit) (s : WalletState) : WalletState :=
  (advance m s []).1.1.

(** The requests of a connection attempt, in the order they can be
    sent. *)
Definition protocol (p : Provider) : list Event :=
  [ Requested p eth_requestAccounts;
    Requested p eth_chainId;
    Requested p (wallet_switchEthereumChain monadTestnetChainIdHex);
    Requested p (wallet_addEthereumChain monadTestnetParams) ].

(** The state [connectWallet] leaves on success. *)
Definition connected_to (p : Provider) (a : Hex) : WalletState :=
  {| isConnected := true;
     address := Some a;
     walletClient :=
       Some {| account := a; chain := monadTestnet; transport := p |};
     error := None;
     isConnecting := false |}.

(** The state a failed attempt leaves: the message, the flag lowered,
    the connection as it was. *)
Definition failed_with (message : string) (s : WalletState) : WalletState :=
  {| isConnected := isConnected s;
     address := address s;
     walletClient := walletClient s;
     error := Some message;
     isConnecting := false |}.

(** An address is bound exactly when connected, together with a wallet
    client for that same account. *)
Definition bound (s : WalletState) : Prop :=
  match address s, walletClient s with
  | Some a, Some c => isConnected s = true ∧ account c = a
  | None, None => isConnected s = false
  | _, _ => False
  end.

(** ** Sample pages and wallets, for concrete runs *)

Definition v8_message : string :=
  "Cannot read properties of undefined (reading 'request')".

(** No wallet extension installed. *)
Definition bare_page : Host :=
  {| window_ethereum := Undefined; undefined_request_message := v8_message |}.

(** One wallet extension, injected as a single provider object. *)
Definition wallet_page : Host :=
  {| window_ethereum := ProviderObject 0%nat None;
     undefined_request_message := v8_message |}.

(** A wallet with one account that is on another chain and does not know
    the Monad testnet: the switch is refused with code 4902, the
    registration is accepted. *)
Definition unknown_chain_wallet : Oracle :=
  fun _ _ X r =>
    match r in Rpc X return Thrown + X with
    | eth_requestAccounts => inr ["0xabc"]
    | eth_chainId => inr "0x1"
    | wallet_switchEthereumChain _ =>
        inl (ErrorObject (Some 4902) (Some "Unrecognized chain ID"))
    | wallet_addEthereumChain _ => inr ()
    end.

(** A page whose global is an empty array of providers. *)
Definition empty_array_page : Host :=
  {| window_ethereum := ProviderArray [];
     undefined_request_message := v8_message |}.

(** A page with two extensions; the first is picked. *)
Definition crowded_page : Host :=
  {| window_ethereum := ProviderArray [7%nat; 8%nat];
     undefined_request_message := v8_message |}.

(** A wallet for which every request is answered the same way, whatever
    happened before. *)
Definition scripted (accounts : Thrown + list string)
  (chain : Thrown + string) (switch add : Thrown + unit) : Oracle :=
  fun _ _ X r =>
    match r in Rpc X return Thrown + X with
    | eth_requestAccounts => accounts
    | eth_chainId => chain
    | wallet_switchEthereumChain _ => switch
    | wallet_addEthereumChain _ => add
    end.

Definition user_rejected : Thrown :=
  ErrorObject (Some 4001) (Some "User rejected the request.").

Definition unrecognized_chain : Thrown :=
  ErrorObject (Some 4902) (Some "Unrecognized chain ID").

(** A promise rejected with [null]. *)
Definition null_rejection : Thrown :=
  Nullish "Cannot read properties of null (reading 'code')".

(** A rejection whose [message] is a number. *)
Definition numeric_message : Thrown :=
  OddMessage None true
    (fun _ => inl "requestError.message?.includes is not a function") "42".

End WalletContext.

(* ===================================================================== *)
(** * Properties of the server *)
(* ===================================================================== *)

Section ServerProofs.
Import Server.

(** ** How one validation call behaves *)

Lemma get_session_missing (now : Date) (sessionId : string) (st : State) :
  sessions st !! sessionId = None →
  get_session now sessionId st =
    ({| ValidateResponse.status := 404;
        ValidateResponse.valid := false;
        ValidateResponse.error := Some "Session not found";
        ValidateResponse.session := None |}, st).
Proof. intros Hnone. unfold get_session. by rewrite Hnone. Qed.

Lemma get_session_expired (now : Date) (sessionId : string) (st : State)
  (s : Session) :
  sessions st !! sessionId = Some s →
  Session.expiresAt s < now →
  (get_session now sessionId st).2 = st
  ∧ ValidateResponse.status (get_session now sessionId st).1 = 200
  ∧ ValidateResponse.valid (get_session now sessionId st).1 = false
  ∧ ValidateResponse.error (get_session now sessionId st).1
    = Some "Session expired".
Proof.
  intros Hs Hlt. unfold get_session. rewrite Hs. simpl.
  apply Z.ltb_lt in Hlt. by rewrite Hlt.
Qed.

Lemma get_session_used (now : Date) (sessionId : string) (st : State)
  (s : Session) :
  sessions st !! sessionId = Some s →
  Session.type s = onetime →
  truthy (Session.used s) = true →
  now ≤ Session.expiresAt s →
  (get_session now sessionId st).2 = st
  ∧ ValidateResponse.status (get_session now sessionId st).1 = 200
  ∧ ValidateResponse.valid (get_session now sessionId st).1 = false
  ∧ ValidateResponse.error (get_session now sessionId st).1
    = Some "One-time access already used".
Proof.
  intros Hs Ht Hu Hle. unfold get_session. rewrite Hs. simpl.
  rewrite Ht, Hu. simpl.
  assert ((Session.expiresAt s <? now) = false) as -> by (apply Z.ltb_ge; lia).
  done.
Qed.

Lemma get_session_fresh_onetime (now : Date) (sessionId : string)
  (st : State) (s : Session) :
  sessions st !! sessionId = Some s →
  Session.type s = onetime →
  truthy (Session.used s) = false →
  now ≤ Session.expiresAt s →
  ValidateResponse.valid (get_session now sessionId st).1 = true
  ∧ ValidateResponse.status (get_session now sessionId st).1 = 200
  ∧ (get_session now sessionId st).2 =
      {| sessions := <[sessionId := Session.set_used true s]> (sessions st);
         payments := payments st;
         order := order st |}.
Proof.
  intros Hs Ht Hu Hle. unfold get_session. rewrite Hs. simpl.
  rewrite Ht, Hu. simpl.
  assert ((Session.expiresAt s <? now) = false) as -> by (apply Z.ltb_ge; lia).
  done.
Qed.

Lemma get_session_timed (now : Date) (sessionId : string) (st : State)
  (s : Session) :
  sessions st !! sessionId = Some s →
  Session.type s = hour24 →
  (get_session now sessionId st).2 = st
  ∧ ValidateResponse.valid (get_session now sessionId st).1
    = negb (Session.expiresAt s <? now).
Proof.
  intros Hs Ht. unfold get_session. rewrite Hs. simpl. rewrite Ht. simpl.
  by destruct (Session.expiresAt s <? now).
Qed.

(** A call that is answered [valid: false] leaves the store alone. *)
Lemma get_session_invalid_same (now : Date) (sessionId : string)
  (st : State) :
  ValidateResponse.valid (get_session now sessionId st).1 = false →
  (get_session now sessionId st).2 = st.
Proof.
  unfold get_session. destruct (sessions st !! sessionId) as [s|]; [|done].
  simpl. by destruct (_ || _).
Qed.

(** The store after a call, key by key. *)
Lemma get_session_lookup (now : Date) (sessionId k : string) (st : State) :
  sessions (get_session now sessionId st).2 !! k =
    if decide (k = sessionId) then
      match sessions st !! sessionId with
      | Some s =>
          if ValidateResponse.valid (get_session now sessionId st).1
             && is_onetime (Session.type s)
          then Some (Session.set_used true s)
          else Some s
      | None => None
      end
    else sessions st !! k.
Proof.
  unfold get_session.
  destruct (sessions st !! sessionId) as [s|] eqn:Hs; simpl.
  - destruct (_ || _); simpl.
    + case_decide; by subst.
    + destruct (is_onetime (Session.type s)); simpl.
      * case_decide; subst.
        -- by rewrite lookup_insert_eq.
        -- by rewrite lookup_insert_ne.
      * case_decide; by subst.
  - case_decide; by subst.
Qed.

Lemma get_session_payments (now : Date) (sessionId : string) (st : State) :
  payments (get_session now sessionId st).2 = payments st.
Proof.
  unfold get_session. destruct (sessions st !! sessionId) as [s|]; [|done].
  simpl. destruct (_ || _); [done|]. by destruct (is_onetime _).
Qed.

(** ** Validation outcomes *)

Lemma validate_all_cons (now : Date) (k : string)
  (rest : list (Date * string)) (st : State) :
  validate_all ((now, k) :: rest) st =
    ((get_session now k st).1
       :: (validate_all rest (get_session now k st).2).1,
     (validate_all rest (get_session now k st).2).2).
Proof.
  simpl. destruct (get_session now k st) as [r st1]. simpl.
  by destruct (validate_all rest st1).
Qed.

(** Validating a 24-hour grant over and over: the store stays as it is
    and every call up to the expiry time is answered [Valid]. *)
Lemma validate_all_timed (calls : list (Date * string)) (st : State)
  (sessionId : string) (s : Session) :
  sessions st !! sessionId = Some s →
  Session.type s = hour24 →
  Forall (fun c => c.2 = sessionId) calls →
  (validate_all calls st).2 = st
  ∧ ∀ i now r,
      calls !! i = Some (now, sessionId) →
      (validate_all calls st).1 !! i = Some r →
      now ≤ Session.expiresAt s →
      outcome r = Some Valid.
Proof.
  intros Hs Ht. induction 1 as [|[now k] rest Hk _ [IHst IHout]].
  - split; [done|]. intros i now r Hi. by rewrite lookup_nil in Hi.
  - simpl in Hk. subst k. rewrite validate_all_cons.
    destruct (get_session_timed now sessionId st s Hs Ht) as [Hst Hvalid].
    rewrite Hst. simpl. split; [done|].
    intros [|i] now' r; simpl.
    + intros [= ->] [= <-] Hle. unfold outcome. rewrite Hvalid.
      assert ((Session.expiresAt s <? now') = false) as ->
        by (apply Z.ltb_ge; lia).
      done.
    + apply IHout.
Qed.

(** C2.  An unknown id is answered 404 with [valid: false] and reads as
    [NotFound]; a known but invalid grant (expired, or one-time and used)
    is answered 200 with [valid: false] and a reason other than the
    not-found one; neither touches the store.  A 24-hour grant is
    validated without any change to the store, once or in any run of
    calls, and is answered [Valid] up to its expiry time. *)
Theorem validate_classification (now : Date) (sessionId : string)
  (st : State) :
  let r := (get_session now sessionId st).1 in
  let st' := (get_session now sessionId st).2 in
  (sessions st !! sessionId = None →
     ValidateResponse.status r = 404
     ∧ ValidateResponse.valid r = false
     ∧ outcome r = Some NotFound
     ∧ st' = st)
  ∧ (∀ s, sessions st !! sessionId = Some s →
       Session.expiresAt s < now
       ∨ (Session.type s = onetime ∧ truthy (Session.used s) = true) →
       ValidateResponse.status r = 200
       ∧ ValidateResponse.valid r = false
       ∧ (outcome r = Some Expired ∨ outcome r = Some AlreadyConsumed)
       ∧ ValidateResponse.error r ≠ Some "Session not found"
       ∧ st' = st)
  ∧ (∀ s, sessions st !! sessionId = Some s →
       Session.type s = hour24 →
       st' = st
       ∧ (now ≤ Session.expiresAt s → outcome r = Some Valid))
  ∧ (∀ s calls, sessions st !! sessionId = Some s →
       Session.type s = hour24 →
       Forall (fun c => c.2 = sessionId) calls →
       (validate_all calls st).2 = st
       ∧ ∀ i now' r',
           calls !! i = Some (now', sessionId) →
           (validate_all calls st).1 !! i = Some r' →
           now' ≤ Session.expiresAt s →
           outcome r' = Some Valid).
Proof.
  cbv zeta. split; [|split; [|split]];
    [| | |intros s calls; apply validate_all_timed].
  - intros Hnone. by rewrite (get_session_missing _ _ _ Hnone).
  - intros s Hs Hinv.
    destruct (Z.lt_ge_cases (Session.expiresAt s) now) as [Hlt|Hge].
    + destruct (get_session_expired now sessionId st s Hs Hlt)
        as (Hst & Hstatus & Hvalid & Herr).
      repeat split; try done.
      * left. unfold outcome. by rewrite Hvalid, Herr.
      * by rewrite Herr.
    + destruct Hinv as [Hlt|[Ht Hu]]; [lia|].
      destruct (get_session_used now sessionId st s Hs Ht Hu Hge)
        as (Hst & Hstatus & Hvalid & Herr).
      repeat split; try done.
      * right. unfold outcome. by rewrite Hvalid, Herr.
      * by rewrite Herr.
  - intros s Hs Ht.
    destruct (get_session_timed now sessionId st s Hs Ht) as [Hst Hvalid].
    split; [done|]. intros Hle. unfold outcome. rewrite Hvalid.
    assert ((Session.expiresAt s <? now) = false) as ->
      by (apply Z.ltb_ge; lia).
    done.
Qed.

(** C10.  A one-time grant that is both used and past its expiry is
    answered with the expiry reason, not the already-used one. *)
Theorem expired_takes_priority (now : Date) (sessionId : string)
  (st : State) (s : Session) :
  sessions st !! sessionId = Some s →
  Session.type s = onetime →
  truthy (Session.used s) = true →
  Session.expiresAt s < now →
  ValidateResponse.valid (get_session now sessionId st).1 = false
  ∧ ValidateResponse.error (get_session now sessionId st).1
    = Some "Session expired"
  ∧ outcome (get_session now sessionId st).1 = Some Expired.
Proof.
  intros Hs _ _ Hlt.
  destruct (get_session_expired now sessionId st s Hs Hlt)
    as (_ & _ & Hvalid & Herr).
  repeat split; try done. unfold outcome. by rewrite Hvalid, Herr.
Qed.

(** ** What a validation call may change *)

Lemma validate_all_lookup_after_expiry (calls : list (Date * string))
  (st : State) (sessionId : string) (s : Session) :
  sessions st !! sessionId = Some s →
  Forall (fun c => Session.expiresAt s < c.1) calls →
  sessions (validate_all calls st).2 !! sessionId = Some s.
Proof.
  revert st. induction calls as [|[now k] rest IH]; intros st Hs Hall.
  - done.
  - inversion Hall as [|c l Hnow Hrest]; subst. simpl in Hnow. simpl.
    destruct (get_session now k st) as [r st1] eqn:Hcall.
    destruct (validate_all rest st1) as [rs st2] eqn:Hrun. simpl.
    assert (sessions st1 !! sessionId = Some s) as Hs1.
    { replace st1 with (get_session now k st).2 by (by rewrite Hcall).
      rewrite get_session_lookup. case_decide as Hk; [|done]. subst k.
      rewrite Hs.
      destruct (get_session_expired now sessionId st s Hs Hnow)
        as (_ & _ & -> & _). done. }
    specialize (IH st1 Hs1 Hrest). by rewrite Hrun in IH.
Qed.

(** C9.  A validation call leaves the payment history and every other
    grant as they were; the grant it looks up is either untouched or was
    an unexpired one-time grant not yet used, and then only its [used]
    field changed, to [true].  A one-time grant validated only after its
    expiry stays exactly as stored, with its [used] flag as it was. *)
Theorem validate_frame (now : Date) (sessionId : string) (st : State) :
  let st' := (get_session now sessionId st).2 in
  payments st' = payments st
  ∧ (∀ k, k ≠ sessionId → sessions st' !! k = sessions st !! k)
  ∧ (st' = st
     ∨ ∃ s s', sessions st !! sessionId = Some s
         ∧ Session.type s = onetime
         ∧ now ≤ Session.expiresAt s
         ∧ truthy (Session.used s) = false
         ∧ sessions st' !! sessionId = Some s'
         ∧ Session.used s' = Some true
         ∧ Session.id s' = Session.id s
         ∧ Session.createdAt s' = Session.createdAt s
         ∧ Session.expiresAt s' = Session.expiresAt s
         ∧ Session.type s' = Session.type s
         ∧ Session.walletAddress s' = Session.walletAddress s
         ∧ Session.transactionHash s' = Session.transactionHash s)
  ∧ (∀ s calls,
       sessions st !! sessionId = Some s →
       Session.type s = onetime →
       Session.used s = Some false →
       Forall (fun c => Session.expiresAt s < c.1) calls →
       sessions (validate_all calls st).2 !! sessionId = Some s).
Proof.
  cbv zeta. split; [apply get_session_payments|]. split; [|split].
  - intros k Hk. rewrite get_session_lookup. by case_decide.
  - destruct (ValidateResponse.valid (get_session now sessionId st).1)
      eqn:Hvalid; [|left; by apply get_session_invalid_same].
    destruct (sessions st !! sessionId) as [s|] eqn:Hs;
      [|rewrite (get_session_missing _ _ _ Hs) in Hvalid; done].
    destruct (Session.type s) eqn:Ht.
    { left. by destruct (get_session_timed now sessionId st s Hs Ht). }
    destruct (Z.lt_ge_cases (Session.expiresAt s) now) as [Hlt|Hge].
    { destruct (get_session_expired now sessionId st s Hs Hlt)
        as (_ & _ & Hv & _). congruence. }
    destruct (truthy (Session.used s)) eqn:Hu.
    { destruct (get_session_used now sessionId st s Hs Ht Hu Hge)
        as (_ & _ & Hv & _). congruence. }
    right. exists s, (Session.set_used true s).
    destruct (get_session_fresh_onetime now sessionId st s Hs Ht Hu Hge)
      as (_ & _ & ->). simpl. rewrite lookup_insert_eq, Ht. done.
  - intros s calls Hs _ _ Hall.
    by apply validate_all_lookup_after_expiry.
Qed.

(** ** One-time grants are consumed by their first valid call *)

Lemma consumed_at_outcome (sessionId : string) (e now : Date) (st : State) :
  consumed_at sessionId e st →
  outcome (get_session now sessionId st).1
    = Some (if e <? now then Expired else AlreadyConsumed)
  ∧ ValidateResponse.valid (get_session now sessionId st).1 = false.
Proof.
  intros (s & Hs & Ht & Hu & <-).
  destruct (Z.lt_ge_cases (Session.expiresAt s) now) as [Hlt|Hge].
  - destruct (get_session_expired now sessionId st s Hs Hlt)
      as (_ & _ & Hvalid & Herr).
    unfold outcome. rewrite Hvalid, Herr.
    apply Z.ltb_lt in Hlt. by rewrite Hlt.
  - destruct (get_session_used now sessionId st s Hs Ht Hu Hge)
      as (_ & _ & Hvalid & Herr).
    unfold outcome. rewrite Hvalid, Herr.
    assert ((Session.expiresAt s <? now) = false) as ->
      by (apply Z.ltb_ge; lia).
    done.
Qed.

Lemma consumed_at_preserved (sessionId k : string) (e now : Date)
  (st : State) :
  consumed_at sessionId e st →
  consumed_at sessionId e (get_session now k st).2.
Proof.
  intros (s & Hs & Ht & Hu & He). exists s.
  rewrite get_session_lookup. case_decide as Hk; [|done]. subst k.
  rewrite Hs.
  assert (consumed_at sessionId e st) as Hc by (by exists s).
  destruct (consumed_at_outcome sessionId e now st Hc) as [_ ->]. done.
Qed.

Lemma valid_calls_cons (sessionId k : string) (now : Date)
  (rest : list (Date * string)) (st : State) :
  valid_calls sessionId ((now, k) :: rest) st =
    ((if valid_on sessionId ((now, k), (get_session now k st).1)
      then 1 else 0)
     + valid_calls sessionId rest (get_session now k st).2)%nat.
Proof.
  unfold valid_calls. rewrite validate_all_cons. simpl.
  by destruct (valid_on _ _).
Qed.

Lemma consumed_at_run (sessionId : string) (e : Date)
  (calls : list (Date * string)) (st : State) :
  consumed_at sessionId e st →
  valid_calls sessionId calls st = 0%nat
  ∧ ∀ i now r,
      calls !! i = Some (now, sessionId) →
      (validate_all calls st).1 !! i = Some r →
      outcome r = Some (if e <? now then Expired else AlreadyConsumed).
Proof.
  revert st. induction calls as [|[now k] rest IH]; intros st Hc.
  - split; [done|]. intros i now r Hi. by rewrite lookup_nil in Hi.
  - pose proof (consumed_at_preserved sessionId k e now st Hc) as Hc1.
    destruct (IH _ Hc1) as [IHcount IHout]. split.
    + rewrite valid_calls_cons, IHcount. unfold valid_on. simpl.
      destruct (String.eqb_spec k sessionId) as [->|Hne]; [|done].
      by destruct (consumed_at_outcome sessionId e now st Hc) as [_ ->].
    + intros i now' r. rewrite validate_all_cons. simpl.
      destruct i as [|i]; simpl.
      * intros [= -> ->] [= <-].
        by destruct (consumed_at_outcome sessionId e now' st Hc).
      * apply IHout.
Qed.

Lemma onetime_valid_at_most_once (sessionId : string)
  (calls : list (Date * string)) (st : State) (s : Session) :
  sessions st !! sessionId = Some s →
  Session.type s = onetime →
  (valid_calls sessionId calls st ≤ 1)%nat.
Proof.
  revert st s. induction calls as [|[now k] rest IH]; intros st s Hs Ht.
  - unfold valid_calls. simpl. lia.
  - rewrite valid_calls_cons. unfold valid_on. simpl.
    destruct (String.eqb_spec k sessionId) as [->|Hne]; simpl.
    + destruct (ValidateResponse.valid (get_session now sessionId st).1)
        eqn:Hvalid.
      * assert (consumed_at sessionId (Session.expiresAt s)
                  (get_session now sessionId st).2) as Hc.
        { exists (Session.set_used true s).
          rewrite get_session_lookup, decide_True, Hs, Hvalid, Ht by done.
          done. }
        destruct (consumed_at_run sessionId _ rest _ Hc) as [-> _]. lia.
      * rewrite (get_session_invalid_same _ _ _ Hvalid).
        specialize (IH st s Hs Ht). lia.
    + assert (sessions (get_session now k st).2 !! sessionId = Some s) as Hs1.
      { rewrite get_session_lookup. by rewrite decide_False. }
      specialize (IH _ s Hs1 Ht). lia.
Qed.

(** C1, as the handler has it.  The first validation of an unexpired,
    unused one-time grant is answered [Valid] and stores the grant with
    [used = true]; every later validation of that id is refused, as
    [AlreadyConsumed] up to the expiry time and as [Expired] after it; so
    at most one call on that id is ever answered [Valid]. *)
Theorem single_use_valid_once (now : Date) (sessionId : string)
  (st : State) (s : Session) :
  sessions st !! sessionId = Some s →
  Session.type s = onetime →
  truthy (Session.used s) = false →
  now ≤ Session.expiresAt s →
  let r := (get_session now sessionId st).1 in
  let st1 := (get_session now sessionId st).2 in
  outcome r = Some Valid
  ∧ sessions st1 !! sessionId = Some (Session.set_used true s)
  ∧ (∀ calls i now' r',
       calls !! i = Some (now', sessionId) →
       (validate_all calls st1).1 !! i = Some r' →
       outcome r' = Some (if Session.expiresAt s <? now'
                          then Expired else AlreadyConsumed))
  ∧ (∀ calls, valid_calls sessionId calls st ≤ 1)%nat.
Proof.
  intros Hs Ht Hu Hle. cbv zeta.
  destruct (get_session_fresh_onetime now sessionId st s Hs Ht Hu Hle)
    as (Hvalid & _ & Hst).
  assert (sessions (get_session now sessionId st).2 !! sessionId
          = Some (Session.set_used true s)) as Hs1.
  { rewrite Hst. simpl. by rewrite lookup_insert_eq. }
  split; [unfold outcome; by rewrite Hvalid|]. split; [done|]. split.
  - intros calls.
    assert (consumed_at sessionId (Session.expiresAt s)
              (get_session now sessionId st).2) as Hc
      by (by exists (Session.set_used true s)).
    by destruct (consumed_at_run sessionId _ calls _ Hc).
  - intros calls. by apply (onetime_valid_at_most_once _ _ _ s).
Qed.

(** ** Purchases *)

(** A purchase either throws on a [null] body before touching anything,
    or stores one grant and records one payment. *)
Lemma purchase_cases (t : SessionType) (c : Context) (uuid : string)
  (now : Date) (st : State) :
  (c = Some JNull ∧ purchase t c uuid now st = (inl TypeError, st))
  ∨ (c ≠ Some JNull
     ∧ ∃ r s e,
         purchase t c uuid now st =
           (inr r, {| sessions := <[uuid := s]> (sessions st);
                      payments := push_shift e (payments st);
                      order := order_with uuid st |})
         ∧ PurchaseResponse.success r = true
         ∧ PurchaseResponse.sessionId r = uuid
         ∧ Session.id s = uuid
         ∧ Session.type s = t
         ∧ Session.createdAt s = now
         ∧ Session.expiresAt s = now + lifetime t
         ∧ PaymentRecord.id e = uuid
         ∧ PaymentRecord.type e = t
         ∧ PaymentRecord.createdAt e = now).
Proof.
  destruct t, c as [[]|];
    try (left; split; reflexivity);
    (right; split; [congruence|];
     eexists _, _, _; split;
     [cbv [purchase post_pay_session post_pay_onetime bind lift ret
             sessions_set recordPayment member parsePaymentRequest];
      cbn [sessions payments]; reflexivity
     |simpl; repeat split; done]).
Qed.

Lemma push_shift_drop (entry : PaymentRecord) (l : list PaymentRecord) :
  push_shift entry l =
    drop (if Nat.ltb MAX_PAYMENT_HISTORY (length (l ++ [entry]))
          then 1 else 0)%nat (l ++ [entry]).
Proof.
  unfold push_shift. destruct (Nat.ltb _ _); [|done].
  by destruct (l ++ [entry]).
Qed.

Lemma push_shift_length (entry : PaymentRecord) (l : list PaymentRecord) :
  (length l ≤ MAX_PAYMENT_HISTORY)%nat →
  (length (push_shift entry l) ≤ MAX_PAYMENT_HISTORY)%nat.
Proof.
  intros Hl. rewrite push_shift_drop.
  destruct (Nat.ltb_spec MAX_PAYMENT_HISTORY (length (l ++ [entry])))
    as [Hgt|Hle]; rewrite ?length_drop, ?length_app in *; simpl in *; lia.
Qed.

(** The payment history after any request: at most one entry dropped from
    the front, at most one appended. *)
Lemma handle_payments (cfg : Config) (env : Env) (req : Request)
  (st : State) :
  payments (handle cfg env req st).2 = payments st
  ∨ ∃ entry, payments (handle cfg env req st).2
             = push_shift entry (payments st).
Proof.
  destruct req as [| |c|c|sessionId| |]; simpl; try (by left).
  - unfold answer.
    destruct (purchase_cases hour24 c (uuidv4 env) (clock env 0%nat) st)
      as [[_ Hp]|(_ & r & s & e & Hp & _)];
      simpl in Hp; rewrite Hp; simpl; eauto.
  - unfold answer.
    destruct (purchase_cases onetime c (uuidv4 env) (clock env 0%nat) st)
      as [[_ Hp]|(_ & r & s & e & Hp & _)];
      simpl in Hp; rewrite Hp; simpl; eauto.
  - left.
    pose proof (get_session_payments (clock env 0%nat) sessionId st) as Hp.
    by destruct (get_session _ _ _).
Qed.

(** C3.  The payment history of a running server never holds more than
    100 entries; an append to a full history evicts its first entry; and
    no request changes an entry already recorded: the history afterwards
    is the old one, minus at most its first entry, plus at most one new
    entry at the end. *)
Theorem ledger_bounded_fifo :
  (∀ cfg reqs, (length (payments (handle_all cfg reqs initial)) ≤ 100)%nat)
  ∧ (∀ entry l, (length l ≤ 100)%nat →
       (length (push_shift entry l) ≤ 100)%nat)
  ∧ (∀ entry l, length l = 100%nat →
       push_shift entry l = tail l ++ [entry])
  ∧ (∀ cfg env req st, ∃ k news,
       (k ≤ 1)%nat ∧ (length news ≤ 1)%nat
       ∧ payments (handle cfg env req st).2
         = drop k (payments st ++ news)).
Proof.
  assert (∀ cfg reqs st, (length (payments st) ≤ 100)%nat →
            (length (payments (handle_all cfg reqs st)) ≤ 100)%nat) as Hinv.
  { intros cfg reqs. induction reqs as [|[env req] rest IH]; intros st Hst.
    - done.
    - simpl. apply IH.
      destruct (handle_payments cfg env req st) as [->|[entry ->]];
        [done|]. by apply push_shift_length. }
  split; [|split; [|split]].
  - intros cfg reqs. apply Hinv. simpl. lia.
  - intros entry l. apply push_shift_length.
  - intros entry l Hl. unfold push_shift.
    rewrite length_app, Hl. simpl.
    destruct l; [done|]. done.
  - intros cfg env req st.
    destruct (handle_payments cfg env req st) as [->|[entry ->]].
    + exists 0%nat, []. rewrite app_nil_r. simpl. repeat split; lia.
    + eexists _, [entry]. rewrite push_shift_drop.
      split; [|split; [|reflexivity]]; [|simpl; lia].
      destruct (Nat.ltb _ _); lia.
Qed.

Lemma handle_lifetimes (cfg : Config) (env : Env) (req : Request)
  (st : State) :
  lifetimes_exact st → lifetimes_exact (handle cfg env req st).2.
Proof.
  intros Hst.
  assert (∀ t c, lifetimes_exact
            (answer Purchase
               (purchase t c (uuidv4 env) (clock env 0%nat)) st).2) as Hbuy.
  { intros t c. unfold answer.
    destruct (purchase_cases t c (uuidv4 env) (clock env 0%nat) st)
      as [[_ ->]|(_ & r & s & e & -> & _ & _ & _ & Ht & Hc & He & _)];
      [done|].
    intros k s'. simpl. rewrite lookup_insert. case_decide.
    - intros [= <-]. rewrite He, Hc, Ht. lia.
    - apply Hst. }
  destruct req as [| |c|c|sessionId| |]; simpl; try done.
  - apply (Hbuy hour24).
  - apply (Hbuy onetime).
  - pose proof (get_session_lookup (clock env 0%nat) sessionId) as Hlook.
    destruct (get_session _ _ _) as [r st1] eqn:Hcall. simpl.
    intros k s'. specialize (Hlook k st). rewrite Hcall in Hlook.
    simpl in Hlook. rewrite Hlook. case_decide.
    + destruct (sessions st !! sessionId) as [s|] eqn:Hs; [|done].
      destruct (_ && _); intros [= <-]; simpl; by apply (Hst sessionId).
    + apply Hst.
Qed.

(** C7.  A purchase that goes through stores, under the new id, a grant
    of the tier sold whose [expiresAt - createdAt] is the tier's lifetime:
    86,400,000 ms for the 24-hour tier and 300,000 ms for the one-time
    tier; and every grant a running server holds has exactly that span. *)
Theorem purchase_lifetime :
  (∀ t c uuid now st r st',
     purchase t c uuid now st = (inr r, st') →
     ∃ s, sessions st' !! uuid = Some s
          ∧ Session.type s = t
          ∧ Session.createdAt s = now
          ∧ Session.expiresAt s - Session.createdAt s = lifetime t)
  ∧ lifetime hour24 = 86400000
  ∧ lifetime onetime = 300000
  ∧ (∀ cfg reqs k s,
       sessions (handle_all cfg reqs initial) !! k = Some s →
       Session.expiresAt s - Session.createdAt s
       = lifetime (Session.type s)).
Proof.
  split; [|split; [done|split; [done|]]].
  - intros t c uuid now st r st' Hp.
    destruct (purchase_cases t c uuid now st)
      as [[_ Hq]|(_ & r0 & s & e & Hq & _ & _ & _ & Ht & Hc & He & _)];
      rewrite Hq in Hp; [done|].
    injection Hp as <- <-. exists s. simpl. rewrite lookup_insert_eq.
    repeat split; try done. lia.
  - intros cfg reqs.
    assert (∀ st, lifetimes_exact st →
              lifetimes_exact (handle_all cfg reqs st)) as Hinv.
    { induction reqs as [|[env req] rest IH]; intros st Hst; [done|].
      simpl. apply IH. by apply handle_lifetimes. }
    apply Hinv. intros k s. simpl. by rewrite lookup_empty.
Qed.

(** C8, at the body [null].  The body parses, so no fallback is taken;
    reading [body.walletAddress] throws, the request is answered with the
    framework's internal error, and nothing is stored or recorded. *)
Theorem purchase_null_body_fails (cfg : Config) (env : Env) (st : State) :
  handle cfg env (POST_pay_session (Some JNull)) st
    = (InternalServerError, st)
  ∧ handle cfg env (POST_pay_onetime (Some JNull)) st
    = (InternalServerError, st).
Proof. split; reflexivity. Qed.

(** Every other body, parsable or not, is served: an unparsable body is
    handled as the empty object. *)
Lemma purchase_succeeds_unless_null (t : SessionType) (c : Context)
  (uuid : string) (now : Date) (st : State) :
  c ≠ Some JNull →
  purchase t None uuid now st = purchase t (Some (JObject ∅)) uuid now st
  ∧ ∃ r st', purchase t c uuid now st = (inr r, st')
      ∧ PurchaseResponse.success r = true
      ∧ is_Some (sessions st' !! uuid)
      ∧ ∃ e, payments st' = push_shift e (payments st)
             ∧ PaymentRecord.id e = uuid.
Proof.
  intros Hc. split; [by destruct t|].
  destruct (purchase_cases t c uuid now st)
    as [[-> _]|(_ & r & s & e & -> & Hok & _ & _ & _ & _ & _ & He & _)];
    [done|].
  eexists _, _. split; [reflexivity|]. simpl.
  rewrite lookup_insert_eq. eauto 10.
Qed.

End ServerProofs.

(* ===================================================================== *)
(** * Properties of the wallet connector *)
(* ===================================================================== *)

Section WalletProofs.
Import WalletContext.

Lemma count_app (f : Event → bool) (l1 l2 : list Event) :
  count f (l1 ++ l2) = (count f l1 + count f l2)%nat.
Proof. unfold count. by rewrite List.filter_app, length_app. Qed.

(** The synchronous stretch of a call on a page with a provider: the flag
    is raised and the authorization request goes out. *)
Lemma call_with_provider (h : Host) (p : Provider) (sys : System) :
  selected (window_ethereum h) = Some p →
  ∃ pre k,
    Forall (fun e => is_request e = false) pre
    ∧ call h sys =
        {| ui := apply (setIsConnecting true) (apply (setError None) (ui sys));
           trace := trace sys ++ pre ++ [Requested p eth_requestAccounts];
           inflight := inflight sys ++ [Waiting p eth_requestAccounts k] |}.
Proof.
  destruct h as [[|ps|q [ps|]] msg]; simpl; intros Hsel; try done.
  - destruct ps as [|p' ps]; simplify_eq/=.
    eexists [_; _; _; _], _.
    split; [|unfold call; simpl; rewrite <- !app_assoc; reflexivity].
    repeat constructor.
  - destruct ps as [|p' ps]; simplify_eq/=.
    eexists [_; _; _; _], _.
    split; [|unfold call; simpl; rewrite <- !app_assoc; reflexivity].
    repeat constructor.
  - simplify_eq/=.
    eexists [_; _; _], _.
    split; [|unfold call; simpl; rewrite <- !app_assoc; reflexivity].
    repeat constructor.
Qed.

Lemma no_request_no_authorization (pre : list Event) :
  Forall (fun e => is_request e = false) pre →
  count is_authorization pre = 0%nat.
Proof.
  induction 1 as [|e pre He _ IH]; [done|].
  unfold count in *. simpl. by destruct e.
Qed.

(** C4, as the connector has it.  [connectWallet] does not look at
    [isConnecting]: on a page with a provider every call, whatever the
    state and however many earlier calls are still suspended, raises the
    flag and sends its own [eth_requestAccounts], and is then suspended on
    it. *)
Theorem reentrant_call_prompts (h : Host) (p : Provider) (sys : System) :
  selected (window_ethereum h) = Some p →
  count is_authorization (trace (call h sys))
    = S (count is_authorization (trace sys))
  ∧ last (trace (call h sys)) = Some (Requested p eth_requestAccounts)
  ∧ length (inflight (call h sys)) = S (length (inflight sys))
  ∧ isConnecting (ui (call h sys)) = true.
Proof.
  intros Hsel.
  destruct (call_with_provider h p sys Hsel) as (pre & k & Hpre & ->).
  simpl. repeat split.
  - rewrite !count_app, (no_request_no_authorization pre Hpre).
    unfold count. simpl. lia.
  - by rewrite app_assoc, last_snoc.
  - rewrite length_app. simpl. lia.
Qed.

(** C6, as the connector has it.  With [window.ethereum] undefined the
    call runs to its end in a single synchronous stretch and sends
    nothing to any provider: it clears the error and raises
    [isConnecting], throws the install-a-wallet error, stores its message
    and lowers [isConnecting] again. *)
Theorem no_provider_call (h : Host) (sys : System) :
  window_ethereum h = Undefined →
  call h sys =
    {| ui :=
         {| isConnected := isConnected (ui sys);
            address := address (ui sys);
            walletClient := walletClient (ui sys);
            error := Some "请安装 MetaMask 或其他以太坊钱包扩展";
            isConnecting := false |};
       trace :=
         trace sys ++
           [ Did (console_log "connectWallet");
             Did (setError None);
             Did (setIsConnecting true);
             Did (console_error "钱包连接错误详情:");
             Did (setError (Some "请安装 MetaMask 或其他以太坊钱包扩展"));
             Did (setIsConnecting false) ];
       inflight := inflight sys |}.
Proof.
  destruct h as [w msg]. simpl. intros ->.
  unfold call. simpl. rewrite <- !app_assoc, app_nil_r. reflexivity.
Qed.

(** ** Network verification *)

Ltac split_run :=
  repeat (simpl;
          match goal with
          | |- context [match ?x with _ => _ end] => destruct x eqn:?
          end).

(** Whatever the provider answers, one call of [connectWallet] sends at
    most one switch request, and none after a registration request. *)
Lemma connectWallet_switches_once (o : Oracle) (h : Host)
  (s : WalletState) :
  switch_after_add (run o (connectWallet h) s []).1.2 = false
  ∧ (count is_switch (run o (connectWallet h) s []).1.2 ≤ 1)%nat.
Proof.
  destruct h as [[|ps|q [ps|]] msg]; unfold connectWallet, connectWith,
    requestAccounts, readChainId, ensureNetwork, request, count.
  all: split_run. all: simpl.
  all: split; [reflexivity|lia].
Qed.

Lemma read_code_known (n : Z) (e : Thrown) :
  code_is n e = true → read_code e = inr (code_of e).
Proof. by destruct e. Qed.

Lemma ensureNetwork_same_chain (o : Oracle) (h : Host)
  (ethereum : option Provider) (s : WalletState) (tr : list Event) :
  run o (ensureNetwork h ethereum monadTestnetChainIdHex) s tr
    = (s, tr, inr ()).
Proof. reflexivity. Qed.

Lemma ensureNetwork_other_chain (o : Oracle) (h : Host) (p : Provider)
  (chainId : string) (s : WalletState) (tr : list Event) :
  chainId ≠ monadTestnetChainIdHex →
  ∃ rest res,
    run o (ensureNetwork h (Some p) chainId) s tr =
      (s, tr ++ Requested p (wallet_switchEthereumChain monadTestnetChainIdHex)
                :: rest, res)
    ∧ count is_switch rest = 0%nat.
Proof.
  intros Hne. apply String.eqb_neq in Hne.
  unfold ensureNetwork. rewrite Hne. simpl. unfold count.
  split_run; rewrite <- ?app_assoc; simpl; eexists _, _;
    (split; [reflexivity|reflexivity]).
Qed.

Lemma ensureNetwork_unknown_chain (o : Oracle) (h : Host) (p : Provider)
  (chainId : string) (s : WalletState) (tr : list Event) (e : Thrown) :
  chainId ≠ monadTestnetChainIdHex →
  o (tr ++ [Requested p (wallet_switchEthereumChain monadTestnetChainIdHex)])
    p _ (wallet_switchEthereumChain monadTestnetChainIdHex) = inl e →
  code_is 4902 e = true →
  ∃ rest res,
    run o (ensureNetwork h (Some p) chainId) s tr =
      (s, tr ++ [Requested p
                   (wallet_switchEthereumChain monadTestnetChainIdHex);
                 Requested p (wallet_addEthereumChain monadTestnetParams)]
             ++ rest, res)
    ∧ count is_request rest = 0%nat
    ∧ (o (tr ++ [Requested p
                   (wallet_switchEthereumChain monadTestnetChainIdHex);
                 Requested p (wallet_addEthereumChain monadTestnetParams)])
         p _ (wallet_addEthereumChain monadTestnetParams) = inr () →
       rest = [] ∧ res = inr ()).
Proof.
  intros Hne Hswitch Hcode. apply String.eqb_neq in Hne.
  unfold ensureNetwork. rewrite Hne. simpl. rewrite Hswitch. simpl.
  rewrite (read_code_known _ _ Hcode), Hcode. simpl.
  rewrite <- !app_assoc. simpl.
  destruct (o _ p _ (wallet_addEthereumChain monadTestnetParams))
    as [e'|[]] eqn:Hadd; simpl.
  - destruct (read_code e'); [|destruct (code_is 4001 e')]; simpl;
      rewrite <- !app_assoc; simpl;
      eexists [_], _; (split; [reflexivity|]); (split; [reflexivity|]);
      intros [=].
  - exists [], (inr ()). simpl. done.
Qed.

(** A whole call with an account granted on another chain. *)
Lemma connectWallet_on_other_chain (o : Oracle) (h : Host) (p : Provider)
  (a : string) (others : list string) (chainId : string)
  (s : WalletState) :
  selected (window_ethereum h) = Some p →
  chainId ≠ monadTestnetChainIdHex →
  (∀ tr, o tr p _ eth_requestAccounts = inr (a :: others)) →
  (∀ tr, o tr p _ eth_chainId = inr chainId) →
  (∃ rest,
     List.filter is_request (run o (connectWallet h) s []).1.2
     = [ Requested p eth_requestAccounts;
         Requested p eth_chainId;
         Requested p (wallet_switchEthereumChain monadTestnetChainIdHex) ]
       ++ rest)
  ∧ ∀ e,
      (∀ tr, o tr p _ (wallet_switchEthereumChain monadTestnetChainIdHex)
             = inl e) →
      code_is 4902 e = true →
      List.filter is_request (run o (connectWallet h) s []).1.2
      = [ Requested p eth_requestAccounts;
          Requested p eth_chainId;
          Requested p (wallet_switchEthereumChain monadTestnetChainIdHex);
          Requested p (wallet_addEthereumChain monadTestnetParams) ]
      ∧ ((∀ tr, o tr p _ (wallet_addEthereumChain monadTestnetParams)
                = inr ()) →
         (run o (connectWallet h) s []).1.1 =
           {| isConnected := true;
              address := Some a;
              walletClient :=
                Some {| account := a; chain := monadTestnet;
                        transport := p |};
              error := None;
              isConnecting := false |}).
Proof.
  intros Hsel Hne Hauth Hchain. apply String.eqb_neq in Hne.
  destruct h as [[|ps|q [ps|]] msg]; simpl in Hsel;
    [done
    |destruct ps; simplify_eq/=
    |destruct ps; simplify_eq/=
    |simplify_eq/=].
  all: split; [|intros e Hswitch Hcode; split; [|intros Hadd]].
  all: unfold connectWallet, connectWith, requestAccounts, readChainId,
         ensureNetwork, request; simpl;
       rewrite Hauth; simpl; rewrite Hchain; simpl; rewrite Hne; simpl.
  all: try (rewrite Hswitch; simpl;
            rewrite (read_code_known _ _ Hcode), Hcode; simpl).
  all: try (rewrite Hadd; done).
  all: split_run; simpl; try done; eexists; reflexivity.
Qed.

(** C5, as the connector has it.  When the chain id read from the
    provider is not ["0x279F"], a switch to it is requested.  When that
    request is rejected with code 4902, the network definition is sent
    with [wallet_addEthereumChain] and no provider request follows it:
    the switch is not requested again, and once the registration is
    accepted network verification is over.  In a whole call at most one
    switch request is sent, never after a registration request.  For a
    whole call of [connectWallet] with an account granted on another
    chain: the switch is its third request; after a 4902 rejection its
    requests are exactly authorization, chain id, switch, registration;
    and once the registration is accepted the call ends connected to the
    first account. *)
Theorem switch_then_register_without_retry :
  (∀ (o : Oracle) h p chainId s tr,
     chainId ≠ monadTestnetChainIdHex →
     ∃ rest res,
       run o (ensureNetwork h (Some p) chainId) s tr =
         (s, tr ++ Requested p
                     (wallet_switchEthereumChain monadTestnetChainIdHex)
                   :: rest, res)
       ∧ count is_switch rest = 0%nat)
  ∧ (∀ (o : Oracle) h p chainId s tr e,
       chainId ≠ monadTestnetChainIdHex →
       o (tr ++ [Requested p
                   (wallet_switchEthereumChain monadTestnetChainIdHex)])
         p _ (wallet_switchEthereumChain monadTestnetChainIdHex) = inl e →
       code_is 4902 e = true →
       ∃ rest res,
         run o (ensureNetwork h (Some p) chainId) s tr =
           (s, tr ++ [Requested p
                        (wallet_switchEthereumChain monadTestnetChainIdHex);
                      Requested p
                        (wallet_addEthereumChain monadTestnetParams)]
                  ++ rest, res)
         ∧ count is_request rest = 0%nat
         ∧ (o (tr ++ [Requested p
                        (wallet_switchEthereumChain monadTestnetChainIdHex);
                      Requested p
                        (wallet_addEthereumChain monadTestnetParams)])
              p _ (wallet_addEthereumChain monadTestnetParams) = inr () →
            rest = [] ∧ res = inr ()))
  ∧ (∀ (o : Oracle) h s,
       switch_after_add (run o (connectWallet h) s []).1.2 = false
       ∧ (count is_switch (run o (connectWallet h) s []).1.2 ≤ 1)%nat)
  ∧ (∀ (o : Oracle) h p a others chainId s,
       selected (window_ethereum h) = Some p →
       chainId ≠ monadTestnetChainIdHex →
       (∀ tr, o tr p _ eth_requestAccounts = inr (a :: others)) →
       (∀ tr, o tr p _ eth_chainId = inr chainId) →
       (∃ rest,
          List.filter is_request (run o (connectWallet h) s []).1.2
          = [ Requested p eth_requestAccounts;
              Requested p eth_chainId;
              Requested p
                (wallet_switchEthereumChain monadTestnetChainIdHex) ]
            ++ rest)
       ∧ ∀ e,
           (∀ tr, o tr p _
                    (wallet_switchEthereumChain monadTestnetChainIdHex)
                  = inl e) →
           code_is 4902 e = true →
           List.filter is_request (run o (connectWallet h) s []).1.2
           = [ Requested p eth_requestAccounts;
               Requested p eth_chainId;
               Requested p
                 (wallet_switchEthereumChain monadTestnetChainIdHex);
               Requested p (wallet_addEthereumChain monadTestnetParams) ]
           ∧ ((∀ tr, o tr p _ (wallet_addEthereumChain monadTestnetParams)
                     = inr ()) →
              (run o (connectWallet h) s []).1.1 =
                {| isConnected := true;
                   address := Some a;
                   walletClient :=
                     Some {| account := a; chain := monadTestnet;
                             transport := p |};
                   error := None;
                   isConnecting := false |})).
Proof.
  split; [|split; [|split]].
  - apply ensureNetwork_other_chain.
  - apply ensureNetwork_unknown_chain.
  - apply connectWallet_switches_once.
  - apply connectWallet_on_other_chain.
Qed.

End WalletProofs.

(* ===================================================================== *)
(** * Concrete runs *)
(* ===================================================================== *)

Section ConcreteRuns.
Import Server WalletContext.

(** *** Validation *)

(** A one-time grant used at time 0 and presented again after its expiry
    is refused as expired, not as already used. *)
Lemma later_call_after_expiry_is_expired :
  outcome (get_session 0 "S" sample_store).1 = Some Valid
  ∧ outcome (get_session 300001 "S" (get_session 0 "S" sample_store).2).1
    = Some Expired
  ∧ outcome (get_session 300001 "S" (get_session 0 "S" sample_store).2).1
    ≠ Some AlreadyConsumed.
Proof. vm_compute. repeat split. discriminate. Qed.

Lemma single_use_valid_once_witness :
  (sessions sample_store !! "S" = Some sample_onetime
   ∧ Session.type sample_onetime = onetime
   ∧ truthy (Session.used sample_onetime) = false
   ∧ 0 ≤ Session.expiresAt sample_onetime)
  ∧ outcome (get_session 0 "S" sample_store).1 = Some Valid
  ∧ (valid_calls "S" [(1%Z, "S"); (2%Z, "S")] sample_store ≤ 1)%nat.
Proof.
  assert (sessions sample_store !! "S" = Some sample_onetime) as Hs
    by reflexivity.
  assert (0 ≤ Session.expiresAt sample_onetime) as Hle by (simpl; lia).
  split;
    [split; [exact Hs|split; [reflexivity|split; [reflexivity|exact Hle]]]|].
  destruct (single_use_valid_once 0 "S" sample_store sample_onetime
              Hs eq_refl eq_refl Hle) as (Hvalid & _ & _ & Honce).
  split; [exact Hvalid|apply Honce].
Defined.

Lemma validate_classification_witness :
  (sessions sample_store !! "nobody" = None
   ∧ sessions sample_used_store !! "S"
     = Some (Session.set_used true sample_onetime)
   ∧ sessions sample_timed_store !! "T" = Some sample_timed)
  ∧ ValidateResponse.status (get_session 0 "nobody" sample_store).1 = 404
  ∧ ValidateResponse.status (get_session 1 "S" sample_used_store).1 = 200
  ∧ (get_session 1 "S" sample_used_store).2 = sample_used_store
  ∧ (get_session 5 "T" sample_timed_store).2 = sample_timed_store.
Proof.
  split; [split; [reflexivity|split; reflexivity]|].
  split; [|split; [|split]].
  - apply (proj1 (validate_classification 0 "nobody" sample_store)).
    reflexivity.
  - apply (proj1 (proj2 (validate_classification 1 "S" sample_used_store))
             (Session.set_used true sample_onetime)).
    + reflexivity.
    + right. split; reflexivity.
  - apply (proj1 (proj2 (validate_classification 1 "S" sample_used_store))
             (Session.set_used true sample_onetime)).
    + reflexivity.
    + right. split; reflexivity.
  - apply (proj1 (proj2 (proj2
             (validate_classification 5 "T" sample_timed_store)))
             sample_timed); reflexivity.
Defined.

Lemma validate_frame_witness :
  (sessions sample_store !! "S" = Some sample_onetime
   ∧ Forall (fun c : Date * string => Session.expiresAt sample_onetime < c.1)
       [(300001, "S"); (300002, "S")])
  ∧ sessions (validate_all [(300001, "S"); (300002, "S")] sample_store).2
      !! "S" = Some sample_onetime.
Proof.
  assert (Forall (fun c : Date * string =>
                    Session.expiresAt sample_onetime < c.1)
            [(300001, "S"); (300002, "S")]) as Hall
    by (repeat constructor; simpl; lia).
  split; [split; [reflexivity|exact Hall]|].
  apply (proj2 (proj2 (proj2 (validate_frame 0 "S" sample_store)))
           sample_onetime); [reflexivity|reflexivity|reflexivity|exact Hall].
Defined.

Lemma expired_takes_priority_witness :
  (sessions sample_used_store !! "S"
     = Some (Session.set_used true sample_onetime)
   ∧ Session.expiresAt (Session.set_used true sample_onetime) < 300001)
  ∧ ValidateResponse.error (get_session 300001 "S" sample_used_store).1
    = Some "Session expired".
Proof.
  assert (Session.expiresAt (Session.set_used true sample_onetime) < 300001)
    as Hlt by (simpl; lia).
  split; [split; [reflexivity|exact Hlt]|].
  apply (expired_takes_priority 300001 "S" sample_used_store
           (Session.set_used true sample_onetime));
    [reflexivity|reflexivity|reflexivity|exact Hlt].
Defined.

(** *** Purchases and the payment history *)

Lemma ledger_bounded_fifo_witness :
  (length (replicate 100 sample_payment) = 100%nat)
  ∧ push_shift sample_payment (replicate 100 sample_payment)
    = tail (replicate 100 sample_payment) ++ [sample_payment].
Proof.
  split; [reflexivity|].
  apply (proj1 (proj2 (proj2 ledger_bounded_fifo))). reflexivity.
Defined.

Lemma purchase_lifetime_witness :
  ∃ r st',
    purchase onetime None "S" 0 initial = (inr r, st')
    ∧ ∃ s, sessions st' !! "S" = Some s
           ∧ Session.type s = onetime
           ∧ Session.createdAt s = 0
           ∧ Session.expiresAt s - Session.createdAt s = lifetime onetime.
Proof.
  eexists _, _. split; [vm_compute; reflexivity|].
  eapply (proj1 purchase_lifetime onetime None "S" 0 initial).
  vm_compute; reflexivity.
Defined.

(** *** The wallet connector *)

(** A second call made while the first is suspended on its authorization
    request sends a second one. *)
Lemma second_call_prompts_again :
  isConnecting (ui (call wallet_page fresh)) = true
  ∧ length (inflight (call wallet_page fresh)) = 1%nat
  ∧ count is_authorization (trace (call wallet_page fresh)) = 1%nat
  ∧ count is_authorization
      (trace (call wallet_page (call wallet_page fresh))) = 2%nat.
Proof. vm_compute. repeat split. Qed.

Lemma reentrant_call_prompts_witness :
  selected (window_ethereum wallet_page) = Some 0%nat
  ∧ count is_authorization
      (trace (call wallet_page (call wallet_page fresh)))
    = S (count is_authorization (trace (call wallet_page fresh))).
Proof.
  split; [reflexivity|].
  apply (reentrant_call_prompts wallet_page 0%nat (call wallet_page fresh)).
  reflexivity.
Defined.

(** On a page without a provider the call does pass through
    [isConnecting = true]. *)
Lemma no_provider_raises_flag :
  window_ethereum bare_page = Undefined
  ∧ entered_connecting (trace (call bare_page fresh)) = true.
Proof. vm_compute. split; reflexivity. Qed.

Lemma no_provider_call_witness :
  window_ethereum bare_page = Undefined
  ∧ error (ui (call bare_page fresh))
    = Some "请安装 MetaMask 或其他以太坊钱包扩展"
  ∧ isConnecting (ui (call bare_page fresh)) = false
  ∧ inflight (call bare_page fresh) = [].
Proof.
  split; [reflexivity|].
  rewrite (no_provider_call bare_page fresh eq_refl). simpl.
  repeat split.
Defined.

(** With a wallet that does not know the chain, the whole call sends the
    four requests below and ends connected: the registration is the last
    request, and no switch follows it. *)
Lemma unknown_chain_switch_not_retried :
  List.filter is_request
    (run unknown_chain_wallet (connectWallet wallet_page) disconnected []).1.2
  = [ Requested 0%nat eth_requestAccounts;
      Requested 0%nat eth_chainId;
      Requested 0%nat (wallet_switchEthereumChain monadTestnetChainIdHex);
      Requested 0%nat (wallet_addEthereumChain monadTestnetParams) ]
  ∧ switch_after_add
      (run unknown_chain_wallet (connectWallet wallet_page) disconnected [])
        .1.2 = false
  ∧ isConnected
      (run unknown_chain_wallet (connectWallet wallet_page) disconnected [])
        .1.1 = true.
Proof. vm_compute. repeat split. Qed.

Lemma switch_then_register_without_retry_witness :
  ("0x1" ≠ monadTestnetChainIdHex
   ∧ code_is 4902
       (ErrorObject (Some 4902) (Some "Unrecognized chain ID")) = true)
  ∧ (∃ rest res,
      run unknown_chain_wallet (ensureNetwork wallet_page (Some 0%nat) "0x1")
        disconnected [] =
        (disconnected,
         [] ++ [Requested 0%nat
                  (wallet_switchEthereumChain monadTestnetChainIdHex);
                Requested 0%nat
                  (wallet_addEthereumChain monadTestnetParams)] ++ rest,
         res)
      ∧ count is_request rest = 0%nat
      ∧ (unknown_chain_wallet
           ([] ++ [Requested 0%nat
                     (wallet_switchEthereumChain monadTestnetChainIdHex);
                   Requested 0%nat
                     (wallet_addEthereumChain monadTestnetParams)])
           0%nat _ (wallet_addEthereumChain monadTestnetParams) = inr () →
         rest = [] ∧ res = inr ()))
  ∧ isConnected
      (run unknown_chain_wallet (connectWallet wallet_page) disconnected [])
        .1.1 = true
  ∧ address
      (run unknown_chain_wallet (connectWallet wallet_page) disconnected [])
        .1.1 = Some "0xabc".
Proof.
  assert ("0x1" ≠ monadTestnetChainIdHex) as Hne by discriminate.
  split; [split; [exact Hne|reflexivity]|]. split.
  - apply (proj1 (proj2 switch_then_register_without_retry)
             unknown_chain_wallet wallet_page 0%nat "0x1" disconnected []
             (ErrorObject (Some 4902) (Some "Unrecognized chain ID")));
      [exact Hne|reflexivity|reflexivity].
  - destruct (proj2 (proj2 (proj2 switch_then_register_without_retry))
                unknown_chain_wallet wallet_page 0%nat "0xabc" [] "0x1"
                disconnected eq_refl Hne (fun _ => eq_refl)
                (fun _ => eq_refl)) as [_ Hregister].
    destruct (Hregister
                (ErrorObject (Some 4902) (Some "Unrecognized chain ID"))
                (fun _ => eq_refl) eq_refl) as [_ Hconnected].
    rewrite (Hconnected (fun _ => eq_refl)). split; reflexivity.
Defined.

End ConcreteRuns.

(* ===================================================================== *)
(** * Further properties of the server *)
(* ===================================================================== *)

Section ServerExtras.
Import Server.

(** ** Validation and listing use one test *)

Lemma get_session_valid_iff (now : Date) (sessionId : string) (st : State) :
  ValidateResponse.valid (get_session now sessionId st).1 = true
  ↔ ∃ s, sessions st !! sessionId = Some s ∧ is_active now s = true.
Proof.
  unfold get_session.
  destruct (sessions st !! sessionId) as [s|]; simpl.
  - split; [intros H; exists s; split; [done|]|intros (s' & [= <-] & H)];
      unfold is_active in *;
      destruct (Session.expiresAt s <? now);
      destruct (is_onetime (Session.type s) && truthy (Session.used s));
      simpl in *; done.
  - split; [done|]. by intros (s' & ? & _).
Qed.

Lemma omap_lookup_total {A B} (f : A → option B) (l : list A) (i : nat) :
  (∀ x, x ∈ l → is_Some (f x)) →
  omap f l !! i = l !! i ≫= f.
Proof.
  revert i. induction l as [|x l IH]; intros i Hall; [done|].
  destruct (Hall x) as [y Hy]; [by left|].
  assert (omap f (x :: l) = y :: omap f l) as -> by (simpl; by rewrite Hy).
  destruct i as [|i]; simpl; [done|].
  apply IH. intros z Hz. apply Hall. by right.
Qed.

Lemma get_sessions_elem (clock : nat → Date) (st : State)
  (v : ActiveView.t) :
  v ∈ get_sessions clock st
  ↔ ∃ i s, omap (fun k => sessions st !! k) (order st) !! i = Some s
           ∧ is_active (clock i) s = true
           ∧ v = active_view s.
Proof.
  unfold get_sessions. rewrite list_elem_of_fmap. split.
  - intros ([now s] & -> & Hin).
    apply list_elem_of_In, filter_In in Hin as [Hin Hkeep].
    apply list_elem_of_In, elem_of_lookup_imap in Hin
      as (i & s' & [= -> ->] & Hi).
    exists i, s'. done.
  - intros (i & s & Hi & Hact & ->). exists (clock i, s).
    split; [done|].
    apply list_elem_of_In, filter_In. split; [|done].
    apply list_elem_of_In, elem_of_lookup_imap. eauto.
Qed.

(** Whatever the listing shows comes from the store. *)
Lemma get_sessions_from_store (clock : nat → Date) (st : State)
  (v : ActiveView.t) :
  v ∈ get_sessions clock st →
  ∃ i k s, sessions st !! k = Some s
           ∧ is_active (clock i) s = true
           ∧ v = active_view s.
Proof.
  intros (i & s & Hi & Hact & ->)%get_sessions_elem.
  assert (s ∈ omap (fun k => sessions st !! k) (order st)) as Hs
    by (apply list_elem_of_lookup; eauto).
  apply list_elem_of_omap in Hs as (k & _ & Hk). eauto 10.
Qed.

Lemma get_sessions_ordered (clock : nat → Date) (st : State)
  (v : ActiveView.t) :
  ordered st →
  v ∈ get_sessions clock st
  ↔ ∃ i k s, order st !! i = Some k
             ∧ sessions st !! k = Some s
             ∧ is_active (clock i) s = true
             ∧ v = active_view s.
Proof.
  intros [_ Hkeys]. rewrite get_sessions_elem.
  assert (∀ i s,
    omap (fun k => sessions st !! k) (order st) !! i = Some s
    ↔ ∃ k, order st !! i = Some k ∧ sessions st !! k = Some s) as Hlook.
  { intros i s. rewrite omap_lookup_total by (intros k; apply Hkeys).
    destruct (order st !! i) as [k|]; simpl.
    - split; [eauto|]. by intros (k' & [= <-] & ?).
    - split; [done|]. by intros (k' & ? & _). }
  split.
  - intros (i & s & Hi & Hact & ->). apply Hlook in Hi as (k & Hk & Hs).
    eauto 10.
  - intros (i & k & s & Hk & Hs & Hact & ->). exists i, s.
    split; [apply Hlook; eauto|done].
Qed.

Lemma get_sessions_const (now : Date) (st : State) (v : ActiveView.t) :
  ordered st →
  v ∈ get_sessions (fun _ => now) st
  ↔ ∃ k s, sessions st !! k = Some s
           ∧ is_active now s = true
           ∧ v = active_view s.
Proof.
  intros Hord. rewrite get_sessions_ordered by done. split.
  - intros (i & k & s & _ & Hk & Hact & ->). eauto.
  - intros (k & s & Hk & Hact & ->).
    assert (k ∈ order st) as Hin by (apply Hord; eauto).
    apply list_elem_of_lookup in Hin as [i Hi]. eauto 10.
Qed.









(** ** What a purchase writes *)

Lemma purchase_served (t : SessionType) (c : Context) (uuid : string)
  (now : Date) (st : State) :
  is_null_body c = false →
  ∃ r,
    purchase t c uuid now st =
      (inr r,
       {| sessions :=
            <[uuid := grant_of t uuid now (body_field c "walletAddress")
                        (body_field c "transactionHash")]> (sessions st);
          payments :=
            push_shift
              (entry_of t uuid now (body_field c "walletAddress")
                 (body_field c "transactionHash") (body_field c "metadata"))
              (payments st);
          order := order_with uuid st |})
    ∧ PurchaseResponse.success r = true
    ∧ PurchaseResponse.sessionId r = uuid
    ∧ PurchaseResponse.payment r =
        {| PaymentView.amountUsd := amount t;
           PaymentView.walletAddress := body_field c "walletAddress";
           PaymentView.transactionHash := body_field c "transactionHash";
           PaymentView.metadata := body_field c "metadata" |}
    ∧ ∃ view,
        match t with
        | hour24 =>
            PurchaseResponse.session r = Some view
            ∧ PurchaseResponse.access r = None
            ∧ GrantView.expiresAt view = Some (now + lifetime t)
        | onetime =>
            PurchaseResponse.access r = Some view
            ∧ PurchaseResponse.session r = None
            ∧ GrantView.expiresAt view = None
        end
        ∧ GrantView.id view = uuid
        ∧ GrantView.type view = t
        ∧ GrantView.createdAt view = now
        ∧ GrantView.walletAddress view = body_field c "walletAddress"
        ∧ GrantView.transactionHash view = body_field c "transactionHash".
Proof.
  intros Hc.
  destruct t, c as [[]|]; try discriminate Hc;
    (eexists; split;
     [cbv [purchase post_pay_session post_pay_onetime bind lift ret
             sessions_set recordPayment member parsePaymentRequest
             body_field grant_of entry_of amount lifetime];
      cbn [sessions payments]; reflexivity
     |simpl; repeat split; eexists; repeat split]).
Qed.

Lemma purchase_null (t : SessionType) (uuid : string) (now : Date)
  (st : State) (c : Context) :
  is_null_body c = true →
  purchase t c uuid now st = (inl TypeError, st).
Proof. destruct t, c as [[]|]; try discriminate; reflexivity. Qed.

Lemma purchase_not_null (t : SessionType) (c : Context) (uuid : string)
  (now : Date) (st st' : State) (r : PurchaseResponse) :
  purchase t c uuid now st = (inr r, st') → is_null_body c = false.
Proof.
  intros Hp. destruct (is_null_body c) eqn:Hc; [|done].
  by rewrite (purchase_null t uuid now st c Hc) in Hp.
Qed.

(** X2.  A grant just bought validates: presenting the id of the
    response at any time up to [now + lifetime] is answered 200 and
    [Valid], with the tier, the purchase time, the expiry time and the
    remaining time [expiresAt - now'] in the view; presenting it later is
    refused as expired and changes nothing. *)
Theorem purchase_then_validate (t : SessionType) (c : Context)
  (uuid : string) (now now' : Date) (st st' : State)
  (r : PurchaseResponse) :
  purchase t c uuid now st = (inr r, st') →
  let v := (get_session now' (PurchaseResponse.sessionId r) st').1 in
  (now' ≤ now + lifetime t →
     outcome v = Some Valid
     ∧ ValidateResponse.status v = 200
     ∧ ∃ view, ValidateResponse.session v = Some view
         ∧ SessionView.id view = PurchaseResponse.sessionId r
         ∧ SessionView.type view = t
         ∧ SessionView.createdAt view = now
         ∧ SessionView.expiresAt view = now + lifetime t
         ∧ SessionView.remainingTime view = Some (now + lifetime t - now'))
  ∧ (now + lifetime t < now' →
       outcome v = Some Expired
       ∧ (get_session now' (PurchaseResponse.sessionId r) st').2 = st').
Proof.
  intros Hp. pose proof (purchase_not_null _ _ _ _ _ _ _ Hp) as Hc.
  destruct (purchase_served t c uuid now st Hc) as (r0 & Hq & _ & Hid & _).
  rewrite Hq in Hp. injection Hp as <- <-. rewrite Hid. cbv zeta.
  set (g := grant_of t uuid now _ _).
  set (st' := {| sessions := <[uuid := g]> (sessions st); payments := _;
                 order := _ |}).
  assert (sessions st' !! uuid = Some g) as Hg
    by (simpl; apply lookup_insert_eq).
  split.
  - intros Hle.
    assert (is_active now' g = true) as Hact.
    { unfold is_active. simpl.
      assert ((now + lifetime t <? now') = false) as ->
        by (apply Z.ltb_ge; lia).
      by destruct t. }
    unfold get_session. rewrite Hg.
    unfold is_active in Hact. apply andb_true_iff in Hact as [Hexp Hused].
    apply negb_true_iff in Hexp, Hused. cbv zeta. rewrite Hexp, Hused.
    simpl. repeat split. eexists. repeat split.
  - intros Hlt.
    destruct (get_session_expired now' uuid st' g Hg Hlt)
      as (Hst & _ & Hvalid & Herr).
    split; [|done]. unfold outcome. by rewrite Hvalid, Herr.
Qed.

Lemma push_shift_last (entry : PaymentRecord) (l : list PaymentRecord) :
  last (push_shift entry l) = Some entry.
Proof.
  unfold push_shift.
  destruct (Nat.ltb_spec MAX_PAYMENT_HISTORY (length (l ++ [entry])))
    as [Hgt|_]; [|apply last_snoc].
  destruct l as [|x l]; [simpl in Hgt; unfold MAX_PAYMENT_HISTORY in Hgt; lia|].
  simpl. apply last_snoc.
Qed.

(** X3.  A purchase that goes through writes the same provenance three
    times: the wallet address and transaction hash of the stored grant,
    of the newest history entry and of the response are the values the
    body carries (none when the body did not parse), and that entry has
    the id of the response, the tier, its price and the purchase time.
    No other id of the store is touched. *)
Theorem purchase_provenance (t : SessionType) (c : Context)
  (uuid : string) (now : Date) (st st' : State) (r : PurchaseResponse) :
  purchase t c uuid now st = (inr r, st') →
  ∃ s e,
    sessions st' !! PurchaseResponse.sessionId r = Some s
    ∧ last (payments st') = Some e
    ∧ PaymentRecord.id e = PurchaseResponse.sessionId r
    ∧ PaymentRecord.type e = t
    ∧ PaymentRecord.amountUsd e = amount t
    ∧ PaymentRecord.createdAt e = now
    ∧ PaymentRecord.walletAddress e = Session.walletAddress s
    ∧ PaymentRecord.transactionHash e = Session.transactionHash s
    ∧ PaymentView.walletAddress (PurchaseResponse.payment r)
      = Session.walletAddress s
    ∧ PaymentView.transactionHash (PurchaseResponse.payment r)
      = Session.transactionHash s
    ∧ PaymentView.metadata (PurchaseResponse.payment r)
      = PaymentRecord.metadata e
    ∧ (∀ fields, c = Some (JObject fields) →
         Session.walletAddress s = fields !! "walletAddress"
         ∧ Session.transactionHash s = fields !! "transactionHash"
         ∧ PaymentRecord.metadata e = fields !! "metadata")
    ∧ (c = None →
         Session.walletAddress s = None
         ∧ Session.transactionHash s = None
         ∧ PaymentRecord.metadata e = None)
    ∧ (∀ k, k ≠ PurchaseResponse.sessionId r →
         sessions st' !! k = sessions st !! k).
Proof.
  intros Hp. pose proof (purchase_not_null _ _ _ _ _ _ _ Hp) as Hc.
  destruct (purchase_served t c uuid now st Hc)
    as (r0 & Hq & _ & Hid & Hpay & _).
  rewrite Hq in Hp. injection Hp as <- <-. rewrite Hid, Hpay.
  eexists _, _. simpl. rewrite lookup_insert_eq, push_shift_last.
  split; [reflexivity|]. split; [reflexivity|]. simpl.
  repeat split; try (by intros; subst).
  intros k Hk. by rewrite lookup_insert_ne.
Qed.

(** ** The store as a whole *)

Lemma handle_dom (cfg : Config) (env : Env) (req : Request) (st : State) :
  dom (sessions (handle cfg env req st).2)
  = dom (sessions st) ∪ list_to_set (purchased [(env, req)]).
Proof.
  assert (∀ t c,
    dom (sessions
           (answer Purchase
              (purchase t c (uuidv4 env) (clock env 0%nat)) st).2)
    = dom (sessions st)
      ∪ list_to_set (if is_null_body c then [] else [uuidv4 env]))
    as Hbuy.
  { intros t c. unfold answer. destruct (is_null_body c) eqn:Hc.
    - rewrite (purchase_null t _ _ st c Hc). simpl.
      by rewrite union_empty_r_L.
    - destruct (purchase_served t c (uuidv4 env) (clock env 0%nat) st Hc)
        as (r & -> & _). simpl.
      by rewrite dom_insert_L, union_empty_r_L, (comm_L (∪)). }
  destruct req as [| |c|c|sessionId| |]; unfold purchased; simpl;
    rewrite ?app_nil_r; try (by rewrite union_empty_r_L).
  - apply (Hbuy hour24).
  - apply (Hbuy onetime).
  - pose proof (get_session_lookup (clock env 0%nat) sessionId) as Hlook.
    destruct (get_session _ _ _) as [r st1] eqn:Hcall. simpl.
    rewrite union_empty_r_L. apply set_eq. intros k.
    rewrite !elem_of_dom. specialize (Hlook k st). rewrite Hcall in Hlook.
    simpl in Hlook. rewrite Hlook. case_decide as Hk; [|done]. subst k.
    destruct (sessions st !! sessionId) as [s|]; [|done].
    destruct (_ && _); split; intros _; eauto.
Qed.

(** X4.  Grants are never deleted and only purchases add any: after any
    run of requests the ids in the store are those it started with plus
    the ids handed out by the purchases that went through. *)
Theorem store_ids_are_purchases (cfg : Config)
  (reqs : list (Env * Request)) (st : State) :
  dom (sessions (handle_all cfg reqs st))
  = dom (sessions st) ∪ list_to_set (purchased reqs).
Proof.
  revert st. induction reqs as [|[env req] rest IH]; intros st.
  - simpl. by rewrite union_empty_r_L.
  - simpl handle_all. rewrite IH, handle_dom.
    assert (purchased ((env, req) :: rest)
            = purchased [(env, req)] ++ purchased rest) as ->
      by (unfold purchased; simpl; by rewrite app_nil_r).
    by rewrite list_to_set_app_L, (assoc_L (∪)).
Qed.

Lemma handle_well_formed (cfg : Config) (env : Env) (req : Request)
  (st : State) :
  well_formed st → well_formed (handle cfg env req st).2.
Proof.
  intros Hst.
  assert (∀ t c, well_formed
            (answer Purchase
               (purchase t c (uuidv4 env) (clock env 0%nat)) st).2) as Hbuy.
  { intros t c. unfold answer. destruct (is_null_body c) eqn:Hc.
    - by rewrite (purchase_null t _ _ st c Hc).
    - destruct (purchase_served t c (uuidv4 env) (clock env 0%nat) st Hc)
        as (r & -> & _).
      intros k s. simpl. rewrite lookup_insert. case_decide.
      + intros [= <-]. subst k. destruct t; simpl; eauto.
      + apply Hst. }
  destruct req as [| |c|c|sessionId| |]; simpl; try done.
  - apply (Hbuy hour24).
  - apply (Hbuy onetime).
  - pose proof (get_session_lookup (clock env 0%nat) sessionId) as Hlook.
    destruct (get_session _ _ _) as [r st1] eqn:Hcall. simpl.
    intros k s'. specialize (Hlook k st). rewrite Hcall in Hlook.
    simpl in Hlook. rewrite Hlook. case_decide as Hk; [|apply Hst].
    subst k. destruct (sessions st !! sessionId) as [s|] eqn:Hs; [|done].
    destruct (Hst sessionId s Hs) as [Hid Hused].
    destruct (ValidateResponse.valid r); simpl;
      [|intros [= <-]; done].
    destruct (Session.type s) eqn:Ht; simpl; intros [= <-]; simpl;
      rewrite ?Ht; eauto.
Qed.

(** X5.  In every state a server reaches, each grant is stored under its
    own id, a 24-hour grant has no [used] flag and a one-time grant has
    one. *)
Theorem reachable_well_formed (cfg : Config) (reqs : list (Env * Request)) :
  well_formed (handle_all cfg reqs initial).
Proof.
  assert (∀ st, well_formed st → well_formed (handle_all cfg reqs st))
    as Hinv.
  { induction reqs as [|[env req] rest IH]; intros st Hst; [done|].
    simpl. apply IH. by apply handle_well_formed. }
  apply Hinv. intros k s. simpl. by rewrite lookup_empty.
Qed.

Lemma handle_all_well_formed (cfg : Config) (reqs : list (Env * Request))
  (st : State) :
  well_formed st → well_formed (handle_all cfg reqs st).
Proof.
  revert st. induction reqs as [|[env req] rest IH]; intros st Hst; [done|].
  simpl. apply IH. by apply handle_well_formed.
Qed.

Lemma purchased_cons (env : Env) (req : Request)
  (rest : list (Env * Request)) :
  purchased ((env, req) :: rest) = purchased [(env, req)] ++ purchased rest.
Proof. unfold purchased. simpl. by rewrite app_nil_r. Qed.

(** A used one-time grant stays one under every request that does not
    hand out its id again. *)
Lemma handle_consumed (cfg : Config) (env : Env) (req : Request)
  (st : State) (sessionId : string) (e : Date) :
  consumed_at sessionId e st →
  sessionId ∉ purchased [(env, req)] →
  consumed_at sessionId e (handle cfg env req st).2.
Proof.
  intros Hc Hfresh.
  assert (∀ t c,
    sessionId ∉ (if is_null_body c then [] else [uuidv4 env]) →
    consumed_at sessionId e
      (answer Purchase
         (purchase t c (uuidv4 env) (clock env 0%nat)) st).2) as Hbuy.
  { intros t c Hid. unfold answer. destruct (is_null_body c) eqn:Hnull.
    - by rewrite (purchase_null t _ _ st c Hnull).
    - destruct (purchase_served t c (uuidv4 env) (clock env 0%nat) st Hnull)
        as (r & -> & _).
      destruct Hc as (s & Hs & Hrest). exists s. simpl.
      rewrite lookup_insert_ne; [done|].
      intros <-. apply Hid. by left. }
  destruct req as [| |c|c|k| |]; unfold purchased in Hfresh;
    simpl in Hfresh; rewrite ?app_nil_r in Hfresh; simpl; try done.
  - by apply (Hbuy hour24).
  - by apply (Hbuy onetime).
  - pose proof (consumed_at_preserved sessionId k e (clock env 0%nat) st Hc)
      as Hc'.
    by destruct (get_session _ _ _).
Qed.

Lemma handle_all_consumed (cfg : Config) (reqs : list (Env * Request))
  (st : State) (sessionId : string) (e : Date) :
  consumed_at sessionId e st →
  sessionId ∉ purchased reqs →
  consumed_at sessionId e (handle_all cfg reqs st).
Proof.
  revert st. induction reqs as [|[env req] rest IH]; intros st Hc Hfresh;
    [done|].
  rewrite purchased_cons in Hfresh.
  apply not_elem_of_app in Hfresh as [Hhere Hlater].
  simpl. apply IH; [|done]. by apply handle_consumed.
Qed.

(** X6.  Once a one-time grant has been validated it is gone from the
    listing for good: it was listed just before, at the same clock
    reading, and it is listed by no state reached from then on, whatever
    requests follow and whatever the clock says, as long as no purchase
    hands out its id again. *)
Theorem consumed_grant_not_listed (now : Date) (sessionId : string)
  (st : State) (s : Session) :
  well_formed st →
  ordered st →
  sessions st !! sessionId = Some s →
  Session.type s = onetime →
  ValidateResponse.valid (get_session now sessionId st).1 = true →
  active_view s ∈ get_sessions (fun _ => now) st
  ∧ ∀ cfg reqs clock v,
      sessionId ∉ purchased reqs →
      v ∈ get_sessions clock
            (handle_all cfg reqs (get_session now sessionId st).2) →
      ActiveView.id v ≠ sessionId.
Proof.
  intros Hwf Hord Hs Ht Hvalid. split.
  - apply get_sessions_const; [done|]. exists sessionId, s.
    apply get_session_valid_iff in Hvalid as (s' & Hs' & Hact).
    assert (s' = s) as -> by congruence. done.
  - intros cfg reqs clock v Hfresh Hv.
    assert (well_formed (get_session now sessionId st).2) as Hwf1.
    { pose proof (handle_well_formed cfg
                    {| uuidv4 := ""; clock := fun _ => now |}
                    (GET_session sessionId) st Hwf) as H.
      simpl in H. by destruct (get_session now sessionId st). }
    assert (consumed_at sessionId (Session.expiresAt s)
              (get_session now sessionId st).2) as Hc1.
    { exists (Session.set_used true s).
      rewrite get_session_lookup, decide_True, Hs, Hvalid, Ht by done.
      done. }
    pose proof (handle_all_well_formed cfg reqs _ Hwf1) as Hwf2.
    destruct (handle_all_consumed cfg reqs _ _ _ Hc1 Hfresh)
      as (s2 & Hs2 & Ht2 & Hu2 & _).
    apply get_sessions_from_store in Hv as (i & k & s' & Hk & Hact & ->).
    simpl. intros Hid.
    destruct (Hwf2 k s' Hk) as [Hid' _]. rewrite Hid in Hid'. subst k.
    assert (s' = s2) as -> by congruence.
    unfold is_active in Hact. rewrite Ht2, Hu2 in Hact. simpl in Hact.
    by rewrite andb_false_r in Hact.
Qed.

(** ** The payment history *)

Lemma newest_app {A} (n : nat) (a b : list A) :
  newest n (newest n a ++ b) = newest n (a ++ b).
Proof.
  unfold newest.
  rewrite <- (drop_app_le a b (length a - n)) by lia.
  rewrite drop_drop. f_equal.
  rewrite length_drop, !length_app. lia.
Qed.

Lemma push_shift_newest (entry : PaymentRecord) (l : list PaymentRecord) :
  (length l ≤ MAX_PAYMENT_HISTORY)%nat →
  push_shift entry l = newest MAX_PAYMENT_HISTORY (l ++ [entry]).
Proof.
  intros Hl. rewrite push_shift_drop. unfold newest. f_equal.
  destruct (Nat.ltb_spec MAX_PAYMENT_HISTORY (length (l ++ [entry])))
    as [Hgt|Hle]; rewrite length_app in *; simpl in *; lia.
Qed.

Lemma newest_length {A} (n : nat) (l : list A) :
  length (newest n l) = min n (length l).
Proof. unfold newest. rewrite length_drop. lia. Qed.

(** X7.  Recording entries one after another keeps the newest 100 of
    everything recorded, in the order of arrival: the oldest go first. *)
Theorem record_all_keeps_newest (entries l : list PaymentRecord) :
  (length l ≤ 100)%nat →
  record_all entries l = newest 100 (l ++ entries)
  ∧ length (record_all entries l) = min 100 (length l + length entries).
Proof.
  intros Hl.
  assert (record_all entries l = newest 100 (l ++ entries)) as Heq.
  { revert l Hl. induction entries as [|e es IH]; intros l Hl.
    - simpl. unfold newest. rewrite app_nil_r.
      by replace (length l - 100)%nat with 0%nat by lia.
    - simpl. rewrite IH by (by apply push_shift_length).
      rewrite push_shift_newest by done.
      change MAX_PAYMENT_HISTORY with 100%nat.
      by rewrite newest_app, <- app_assoc. }
  split; [done|]. by rewrite Heq, newest_length, length_app.
Qed.

Lemma handle_payment_ids (cfg : Config) (env : Env) (req : Request)
  (st : State) :
  (length (payments st) ≤ 100)%nat →
  PaymentRecord.id <$> payments (handle cfg env req st).2
  = newest 100 ((PaymentRecord.id <$> payments st)
                ++ purchased [(env, req)]).
Proof.
  intros Hl.
  assert (PaymentRecord.id <$> payments st
          = newest 100 ((PaymentRecord.id <$> payments st) ++ [])) as Hsame.
  { rewrite app_nil_r. unfold newest. rewrite length_fmap.
    by replace (length (payments st) - 100)%nat with 0%nat by lia. }
  assert (∀ t c,
    PaymentRecord.id <$>
      payments (answer Purchase
                  (purchase t c (uuidv4 env) (clock env 0%nat)) st).2
    = newest 100 ((PaymentRecord.id <$> payments st)
                  ++ (if is_null_body c then [] else [uuidv4 env])))
    as Hbuy.
  { intros t c. unfold answer. destruct (is_null_body c) eqn:Hc.
    - by rewrite (purchase_null t _ _ st c Hc).
    - destruct (purchase_served t c (uuidv4 env) (clock env 0%nat) st Hc)
        as (r & -> & _). simpl.
      rewrite push_shift_newest by done. unfold newest.
      by rewrite fmap_drop, fmap_app, !length_app, length_fmap. }
  destruct req as [| |c|c|sessionId| |]; unfold purchased; simpl;
    rewrite ?app_nil_r in *; try done.
  - apply (Hbuy hour24).
  - apply (Hbuy onetime).
  - pose proof (get_session_payments (clock env 0%nat) sessionId st) as Hp.
    destruct (get_session _ _ _). simpl in *. by rewrite Hp.
Qed.

(** X8.  The history of a running server holds one entry per purchase
    that went through, for the newest 100 of them, oldest first: its ids
    are the last 100 ids handed out. *)
Theorem history_is_newest_purchases (cfg : Config)
  (reqs : list (Env * Request)) :
  PaymentRecord.id <$> payments (handle_all cfg reqs initial)
  = newest 100 (purchased reqs).
Proof.
  assert (∀ st, (length (payments st) ≤ 100)%nat →
    PaymentRecord.id <$> payments (handle_all cfg reqs st)
    = newest 100 ((PaymentRecord.id <$> payments st) ++ purchased reqs))
    as Hgen.
  { induction reqs as [|[env req] rest IH]; intros st Hl.
    - simpl. rewrite app_nil_r. unfold newest. rewrite length_fmap.
      by replace (length (payments st) - 100)%nat with 0%nat by lia.
    - simpl handle_all. rewrite IH.
      + rewrite handle_payment_ids by done. rewrite newest_app.
        rewrite <- app_assoc. f_equal. f_equal.
        unfold purchased. simpl. by rewrite app_nil_r.
      + destruct (handle_payments cfg env req st) as [->|[entry ->]];
          [done|]. by apply push_shift_length. }
  apply (Hgen initial). simpl. lia.
Qed.

Lemma insert_desc_perm (p : PaymentRecord) (l : list PaymentRecord) :
  insert_desc p l ≡ₚ p :: l.
Proof.
  induction l as [|q l IH]; simpl; [done|].
  destruct (_ <? _); [|done].
  by rewrite IH, Permutation_swap.
Qed.

Lemma sort_desc_perm (l : list PaymentRecord) : sort_desc l ≡ₚ l.
Proof.
  induction l as [|p l IH]; simpl; [done|].
  by rewrite insert_desc_perm, IH.
Qed.

Lemma insert_desc_sorted (p : PaymentRecord) (l : list PaymentRecord) :
  StronglySorted later_or_same l →
  StronglySorted later_or_same (insert_desc p l).
Proof.
  induction 1 as [|q l Hl IH Hq]; simpl.
  - repeat constructor.
  - destruct (Z.ltb_spec (PaymentRecord.createdAt p)
                (PaymentRecord.createdAt q)) as [Hlt|Hge].
    + constructor; [done|].
      apply Forall_forall. intros x Hx.
      rewrite insert_desc_perm in Hx. apply elem_of_cons in Hx as [->|Hx].
      * unfold later_or_same. lia.
      * rewrite Forall_forall in Hq. by apply Hq.
    + constructor; [by constructor|]. constructor; [done|].
      eapply Forall_impl; [exact Hq|]. unfold later_or_same. simpl.
      intros x Hx. lia.
Qed.

Lemma sort_desc_sorted (l : list PaymentRecord) :
  StronglySorted later_or_same (sort_desc l).
Proof.
  induction l as [|p l IH]; simpl; [constructor|].
  by apply insert_desc_sorted.
Qed.

(** X9.  The history endpoint answers with at most 25 entries, latest
    first; they are entries of the history, and nothing it leaves out is
    later than anything it shows. *)
Theorem recent_payments_newest_first (st : State) :
  StronglySorted later_or_same (get_payments st)
  ∧ length (get_payments st) = min 25 (length (payments st))
  ∧ ∃ rest,
      get_payments st ++ rest ≡ₚ payments st
      ∧ ∀ x y, x ∈ get_payments st → y ∈ rest →
          PaymentRecord.createdAt y ≤ PaymentRecord.createdAt x.
Proof.
  unfold get_payments.
  pose proof (sort_desc_sorted (payments st)) as Hsorted.
  rewrite <- (take_drop 25 (sort_desc (payments st))) in Hsorted.
  split; [by apply StronglySorted_app_1_l in Hsorted|]. split.
  - by rewrite length_take, (Permutation_length (sort_desc_perm _)).
  - exists (drop 25 (sort_desc (payments st))). split.
    + by rewrite take_drop, sort_desc_perm.
    + intros x y Hx Hy.
      apply (StronglySorted_app_1_elem_of _ _ _ x y Hsorted Hx Hy).
Qed.

Lemma insert_desc_filter (t : Date) (p : PaymentRecord)
  (l : list PaymentRecord) :
  filter (fun q => PaymentRecord.createdAt q = t) (insert_desc p l)
  = filter (fun q => PaymentRecord.createdAt q = t) (p :: l).
Proof.
  induction l as [|q l IH]; simpl; [done|].
  destruct (Z.ltb_spec (PaymentRecord.createdAt p)
              (PaymentRecord.createdAt q)) as [Hlt|Hge]; [|done].
  rewrite (filter_cons _ q), IH, !filter_cons.
  repeat case_decide; try done; lia.
Qed.

(** X10.  The sort of the history endpoint is stable: entries recorded
    with the same time stamp are shown in the order they were
    recorded. *)
Theorem recent_payments_stable (t : Date) (l : list PaymentRecord) :
  filter (fun q => PaymentRecord.createdAt q = t) (sort_desc l)
  = filter (fun q => PaymentRecord.createdAt q = t) l.
Proof.
  induction l as [|p l IH]; simpl; [done|].
  by rewrite insert_desc_filter, !filter_cons, IH.
Qed.

End ServerExtras.

(* ===================================================================== *)
(** * Further properties of the wallet connector *)
(* ===================================================================== *)

Section WalletExtras.
Import WalletContext.

Ltac split_cases :=
  repeat (simpl;
          match goal with
          | |- context [match ?x with _ => _ end] => destruct x eqn:?
          end).

Ltac unfold_connect :=
  unfold connectWallet, connectWith, requestAccounts, readChainId,
    ensureNetwork, request.

Lemma connectWallet_final (o : Oracle) (h : Host) (s : WalletState) :
  (run o (connectWallet h) s []).2 = inr ()
  ∧ ((∃ p a, selected (window_ethereum h) = Some p
             ∧ (run o (connectWallet h) s []).1.1 = connected_to p a)
     ∨ (∃ message,
          (run o (connectWallet h) s []).1.1 = failed_with message s)).
Proof.
  destruct h as [[|ps|q [ps|]] msg]; unfold_connect;
    unfold connected_to, failed_with.
  all: split_cases; simpl.
  all: split; [reflexivity|].
  all: first [right; eexists; reflexivity
             |left; eexists _, _; split; reflexivity].
Qed.

(** X11.  A call of [connectWallet] run on its own to its end - every
    request of it answered, no other call and no provider event in
    between - never throws and ends with [isConnecting] lowered.  It ends
    either connected, with no error, an address and a wallet client for
    that address on the picked provider; or with an error message and
    [isConnected], [address] and [walletClient] exactly as they were
    when it started. *)
Theorem connect_ends_connected_or_untouched (o : Oracle) (h : Host)
  (s : WalletState) :
  (run o (connectWallet h) s []).2 = inr ()
  ∧ isConnecting (run o (connectWallet h) s []).1.1 = false
  ∧ ((error (run o (connectWallet h) s []).1.1 = None
      ∧ isConnected (run o (connectWallet h) s []).1.1 = true
      ∧ ∃ p a, selected (window_ethereum h) = Some p
          ∧ address (run o (connectWallet h) s []).1.1 = Some a
          ∧ walletClient (run o (connectWallet h) s []).1.1
            = Some {| account := a; chain := monadTestnet;
                      transport := p |})
     ∨ (is_Some (error (run o (connectWallet h) s []).1.1)
        ∧ isConnected (run o (connectWallet h) s []).1.1 = isConnected s
        ∧ address (run o (connectWallet h) s []).1.1 = address s
        ∧ walletClient (run o (connectWallet h) s []).1.1
          = walletClient s)).
Proof.
  destruct (connectWallet_final o h s)
    as [Hres [(p & a & Hsel & ->)|(message & ->)]].
  - split; [done|]. split; [done|]. left. simpl. eauto 10.
  - split; [done|]. split; [done|]. right. simpl. eauto.
Qed.

(** X12.  The requests of a call all go to the picked provider and come
    in one fixed order - authorization, chain id, switch, registration -
    each at most once: what was sent is always a prefix of that
    sequence, and nothing is sent when no provider can be picked. *)
Theorem requests_follow_protocol (o : Oracle) (h : Host) (s : WalletState) :
  ∃ n, List.filter is_request (run o (connectWallet h) s []).1.2
       = take n (from_option protocol [] (selected (window_ethereum h))).
Proof.
  destruct h as [[|ps|q [ps|]] msg]; unfold_connect; unfold protocol.
  all: split_cases; simpl.
  all: first [by exists 0%nat | by exists 1%nat | by exists 2%nat
             | by exists 3%nat | by exists 4%nat].
Qed.

Ltac pick_provider h Hsel :=
  destruct h as [[|?ps|?q [?ps|]] ?msg]; simpl in Hsel;
  [done
  |destruct ps; simplify_eq/=
  |destruct ps; simplify_eq/=
  |simplify_eq/=].

(** X13.  When the authorization request is rejected the attempt stops
    there, whatever the rejection value: it was the only request and the
    connection is left as it was.  The message shown follows the test
    [user_rejection]: the user-cancelled text when it holds (code 4001,
    or a message containing "rejected" or "denied"); when evaluating it
    throws (a [null] or [undefined] rejection, a message without
    [includes]), the message of that [TypeError]; otherwise the
    rejection's own message behind a fixed prefix, or a fixed text when
    it has none. *)
Theorem authorization_refused (o : Oracle) (h : Host) (p : Provider)
  (e : Thrown) (s : WalletState) :
  selected (window_ethereum h) = Some p →
  (∀ tr, o tr p _ eth_requestAccounts = inl e) →
  List.filter is_request (run o (connectWallet h) s []).1.2
    = [Requested p eth_requestAccounts]
  ∧ (run o (connectWallet h) s []).1.1 =
      failed_with
        match user_rejection e with
        | inl thrown => errorMessage thrown
        | inr true => "用户取消了连接请求"
        | inr false =>
            match truthy_message e with
            | Some m => "连接失败: " +:+ m
            | None => "无法连接到钱包，请确保钱包扩展已启用"
            end
        end s
  ∧ (∀ code message,
       e = ErrorObject code message →
       user_rejection e
       = inr (code_is 4001 e || message_includes "rejected" e
              || message_includes "denied" e))
  ∧ (∀ text, e = StringValue text → user_rejection e = inr false)
  ∧ (∀ complaint,
       e = Nullish complaint → user_rejection e = inl (type_error complaint)).
Proof.
  intros Hsel Hauth. split; [|split; [|split; [|split]]].
  - pick_provider h Hsel.
    all: unfold_connect; simpl; rewrite Hauth; simpl.
    all: destruct (user_rejection e) as [thrown|[|]]; simpl;
      [done|done|by destruct (truthy_message e)].
  - pick_provider h Hsel.
    all: unfold_connect; unfold failed_with; simpl; rewrite Hauth; simpl.
    all: destruct (user_rejection e) as [thrown|[|]]; simpl;
      [done|done|by destruct (truthy_message e)].
  - intros code message ->. unfold user_rejection. simpl.
    destruct (code_is 4001 (ErrorObject code message)); [done|]. simpl.
    unfold message_includes. simpl.
    destruct message as [m|]; [|done].
    by destruct (includes "rejected" m).
  - by intros text ->.
  - by intros complaint ->.
Qed.

(** X14.  A wallet that grants access but has no account: the attempt
    ends after the authorization request with the no-account message,
    without asking for the chain and without touching the connection. *)
Theorem no_accounts_found (o : Oracle) (h : Host) (p : Provider)
  (s : WalletState) :
  selected (window_ethereum h) = Some p →
  (∀ tr, o tr p _ eth_requestAccounts = inr []) →
  List.filter is_request (run o (connectWallet h) s []).1.2
    = [Requested p eth_requestAccounts]
  ∧ (run o (connectWallet h) s []).1.1 =
      failed_with "未找到账户，请在钱包中创建或导入账户" s.
Proof.
  intros Hsel Hauth. pick_provider h Hsel.
  all: unfold_connect; unfold failed_with; simpl; rewrite Hauth; done.
Qed.

(** X15.  A wallet already on ["0x279F"]: the attempt sends the
    authorization and chain-id requests only, and ends connected to the
    first of the accounts returned. *)
Theorem connects_without_switch (o : Oracle) (h : Host) (p : Provider)
  (a : string) (others : list string) (s : WalletState) :
  selected (window_ethereum h) = Some p →
  (∀ tr, o tr p _ eth_requestAccounts = inr (a :: others)) →
  (∀ tr, o tr p _ eth_chainId = inr monadTestnetChainIdHex) →
  List.filter is_request (run o (connectWallet h) s []).1.2
    = [Requested p eth_requestAccounts; Requested p eth_chainId]
  ∧ (run o (connectWallet h) s []).1.1 = connected_to p a.
Proof.
  intros Hsel Hauth Hchain. pick_provider h Hsel.
  all: unfold_connect; unfold connected_to; simpl; rewrite Hauth; simpl;
    rewrite Hchain; done.
Qed.

(** X16.  When the chain id cannot be read the attempt ends after two
    requests with the network-information message, whatever the error
    was, and the connection is left as it was. *)
Theorem chain_read_failure (o : Oracle) (h : Host) (p : Provider)
  (a : string) (others : list string) (e : Thrown) (s : WalletState) :
  selected (window_ethereum h) = Some p →
  (∀ tr, o tr p _ eth_requestAccounts = inr (a :: others)) →
  (∀ tr, o tr p _ eth_chainId = inl e) →
  List.filter is_request (run o (connectWallet h) s []).1.2
    = [Requested p eth_requestAccounts; Requested p eth_chainId]
  ∧ (run o (connectWallet h) s []).1.1 =
      failed_with "无法获取当前网络信息" s.
Proof.
  intros Hsel Hauth Hchain. pick_provider h Hsel.
  all: unfold_connect; unfold failed_with; simpl; rewrite Hauth; simpl;
    rewrite Hchain; done.
Qed.

(** X17.  On another chain, a switch request rejected with anything
    but a readable code 4902 ends the attempt: no registration is tried
    and the connection is left as it was.  For a [null] or [undefined]
    rejection the message is that of the [TypeError] raised on reading
    its code; otherwise it tells a user cancellation (code 4001) from any
    other failure, which is reported with the rejection's message or a
    stand-in when it has none. *)
Theorem switch_refused (o : Oracle) (h : Host) (p : Provider)
  (a chainId : string) (others : list string) (e : Thrown)
  (s : WalletState) :
  selected (window_ethereum h) = Some p →
  chainId ≠ monadTestnetChainIdHex →
  (∀ tr, o tr p _ eth_requestAccounts = inr (a :: others)) →
  (∀ tr, o tr p _ eth_chainId = inr chainId) →
  (∀ tr, o tr p _ (wallet_switchEthereumChain monadTestnetChainIdHex)
         = inl e) →
  code_is 4902 e = false →
  List.filter is_request (run o (connectWallet h) s []).1.2
    = take 3 (protocol p)
  ∧ (run o (connectWallet h) s []).1.1 =
      failed_with
        match e with
        | Nullish complaint => errorMessage (type_error complaint)
        | _ =>
            if code_is 4001 e then "用户取消了切换网络请求"
            else "切换网络失败: " +:+
                 default "未知错误" (truthy_message e)
        end s.
Proof.
  intros Hsel Hne Hauth Hchain Hswitch Hcode. apply String.eqb_neq in Hne.
  pick_provider h Hsel.
  all: unfold_connect; unfold failed_with, protocol; simpl;
    rewrite Hauth; simpl; rewrite Hchain; simpl; rewrite Hne; simpl;
    rewrite Hswitch; simpl.
  all: destruct e as [code message|text|complaint|code truthy finds text];
    [| |done|]; cbn [read_code]; rewrite Hcode.
  all: destruct (code_is 4001 _); simpl; [done|].
  all: split_cases; done.
Qed.

(** X18.  When the switch is rejected with 4902 and the registration is
    rejected too, the attempt ends after those four requests and the
    connection is left as it was.  For a [null] or [undefined] rejection
    the message is that of the [TypeError] raised on reading its code;
    otherwise it tells a user cancellation (code 4001) from any other
    failure. *)
Theorem registration_refused (o : Oracle) (h : Host) (p : Provider)
  (a chainId : string) (others : list string) (e e' : Thrown)
  (s : WalletState) :
  selected (window_ethereum h) = Some p →
  chainId ≠ monadTestnetChainIdHex →
  (∀ tr, o tr p _ eth_requestAccounts = inr (a :: others)) →
  (∀ tr, o tr p _ eth_chainId = inr chainId) →
  (∀ tr, o tr p _ (wallet_switchEthereumChain monadTestnetChainIdHex)
         = inl e) →
  code_is 4902 e = true →
  (∀ tr, o tr p _ (wallet_addEthereumChain monadTestnetParams) = inl e') →
  List.filter is_request (run o (connectWallet h) s []).1.2 = protocol p
  ∧ (run o (connectWallet h) s []).1.1 =
      failed_with
        match e' with
        | Nullish complaint => errorMessage (type_error complaint)
        | _ =>
            if code_is 4001 e' then "用户取消了添加网络请求"
            else "无法添加 Monad Testnet 网络到钱包"
        end s.
Proof.
  intros Hsel Hne Hauth Hchain Hswitch Hcode Hadd.
  apply String.eqb_neq in Hne. pick_provider h Hsel.
  all: unfold_connect; unfold failed_with, protocol; simpl;
    rewrite Hauth; simpl; rewrite Hchain; simpl; rewrite Hne; simpl;
    rewrite Hswitch; simpl; rewrite (read_code_known _ _ Hcode), Hcode;
    simpl; rewrite Hadd; simpl.
  all: destruct e' as [code message|text|complaint|code truthy finds text];
    [| |done|]; cbn [read_code].
  all: by destruct (code_is 4001 _).
Qed.

(** X19.  On another chain the attempt ends connected to the first
    account as soon as the wallet accepts the switch, or, after a 4902
    rejection, accepts the registration. *)
Theorem negotiation_connects (o : Oracle) (h : Host) (p : Provider)
  (a chainId : string) (others : list string) (s : WalletState) :
  selected (window_ethereum h) = Some p →
  chainId ≠ monadTestnetChainIdHex →
  (∀ tr, o tr p _ eth_requestAccounts = inr (a :: others)) →
  (∀ tr, o tr p _ eth_chainId = inr chainId) →
  ((∀ tr, o tr p _ (wallet_switchEthereumChain monadTestnetChainIdHex)
          = inr ()) →
     List.filter is_request (run o (connectWallet h) s []).1.2
       = take 3 (protocol p)
     ∧ (run o (connectWallet h) s []).1.1 = connected_to p a)
  ∧ (∀ e,
       (∀ tr, o tr p _ (wallet_switchEthereumChain monadTestnetChainIdHex)
              = inl e) →
       code_is 4902 e = true →
       (∀ tr, o tr p _ (wallet_addEthereumChain monadTestnetParams)
              = inr ()) →
       List.filter is_request (run o (connectWallet h) s []).1.2
         = protocol p
       ∧ (run o (connectWallet h) s []).1.1 = connected_to p a).
Proof.
  intros Hsel Hne Hauth Hchain. apply String.eqb_neq in Hne.
  pick_provider h Hsel.
  all: split; [intros Hswitch|intros e Hswitch Hcode Hadd].
  all: unfold_connect; unfold connected_to, protocol; simpl;
    rewrite Hauth; simpl; rewrite Hchain; simpl; rewrite Hne; simpl;
    rewrite Hswitch; simpl;
    try rewrite (read_code_known _ _ Hcode), Hcode; simpl;
    rewrite ?Hadd; done.
Qed.

(** X20.  With an empty array of providers (the global itself, or its
    [providers] field) there is nothing to talk to: the attempt sends no
    request and ends with an error built from the engine's message for
    calling [request] on [undefined], the connection left as it was. *)
Theorem no_usable_provider (o : Oracle) (h : Host) (s : WalletState) :
  window_ethereum h ≠ Undefined →
  selected (window_ethereum h) = None →
  List.filter is_request (run o (connectWallet h) s []).1.2 = []
  ∧ (run o (connectWallet h) s []).1.1 =
      failed_with
        (if includes "rejected" (undefined_request_message h)
            || includes "denied" (undefined_request_message h)
         then "用户取消了连接请求"
         else match undefined_request_message h with
              | EmptyString => "无法连接到钱包，请确保钱包扩展已启用"
              | m => "连接失败: " +:+ m
              end) s.
Proof.
  intros Hdef Hsel.
  destruct h as [[|ps|q [ps|]] msg]; simpl in *; try done.
  all: destruct ps; simplify_eq/=.
  all: unfold_connect; unfold failed_with, user_rejection, probe_message,
         message_includes, truthy_message; simpl.
  all: destruct (includes "rejected" msg); simpl; [done|].
  all: destruct (includes "denied" msg); simpl; [done|by destruct msg].
Qed.

(** ** Events and the check on mount *)

(** X21.  How the connector reacts to [accountsChanged]: an empty list
    clears address, wallet client, connection and error whatever the
    state was; the address already bound changes nothing; another first
    account is bound in its place, connected, with a wallet client for
    it.  No request is sent and [isConnecting] is never touched. *)
Theorem accounts_changed (p : Provider) (accounts : list string)
  (s : WalletState) :
  (advance (handleAccountsChanged p (address s) accounts) s []).2 = None
  ∧ List.filter is_request
      (advance (handleAccountsChanged p (address s) accounts) s []).1.2 = []
  ∧ isConnecting (after (handleAccountsChanged p (address s) accounts) s)
    = isConnecting s
  ∧ (accounts = [] →
       after (handleAccountsChanged p (address s) accounts) s =
         {| isConnected := false; address := None; walletClient := None;
            error := None; isConnecting := isConnecting s |})
  ∧ (∀ first others, accounts = first :: others →
       address s = Some first →
       after (handleAccountsChanged p (address s) accounts) s = s)
  ∧ (∀ first others, accounts = first :: others →
       address s ≠ Some first →
       after (handleAccountsChanged p (address s) accounts) s =
         {| isConnected := true; address := Some first;
            walletClient :=
              Some {| account := first; chain := monadTestnet;
                      transport := p |};
            error := error s; isConnecting := isConnecting s |}).
Proof.
  unfold after, handleAccountsChanged.
  destruct accounts as [|first others]; simpl.
  - do 4 (split; [done|]). split; intros f l Hd; discriminate Hd.
  - case_decide as Heq; simpl; do 3 (split; [done|]);
      (split; [intros Hd; discriminate Hd|]);
      (split; intros f l [= <- <-] Hadr).
    + by destruct s.
    + congruence.
    + congruence.
    + done.
Qed.

(** X22.  The check on mount never prompts and is silent: it asks a
    provider (for [eth_accounts]) exactly when one can be picked, and
    whatever comes back it touches neither [error] nor [isConnecting].
    A failure or an empty account list leaves the state as it was; a
    non-empty list connects to its first account. *)
Theorem check_on_mount (h : Host) (p : Provider) (s : WalletState) :
  (checkConnection_start h = CheckAsks p
   ↔ selected (window_ethereum h) = Some p)
  ∧ (∀ m, checkConnection_start h = CheckReturns m →
       after m s = s ∧ (advance m s []).2 = None)
  ∧ (∀ e, after (checkConnection_resume p (inl e)) s = s)
  ∧ after (checkConnection_resume p (inr [])) s = s
  ∧ (∀ a others,
       after (checkConnection_resume p (inr (a :: others))) s =
         {| isConnected := true; address := Some a;
            walletClient :=
              Some {| account := a; chain := monadTestnet;
                      transport := p |};
            error := error s; isConnecting := isConnecting s |}).
Proof.
  unfold after, checkConnection_start, checkOn.
  split; [|split; [|split; [|split]]].
  - destruct h as [[|ps|q [ps|]] msg]; simpl;
      try (destruct ps as [|p' ps]; simpl);
      split; intros H; by simplify_eq.
  - destruct h as [[|ps|q [ps|]] msg]; simpl;
      try (destruct ps as [|p' ps]; simpl);
      intros m H; by simplify_eq.
  - done.
  - done.
  - done.
Qed.

(** X23.  Between calls an address is bound exactly when the state says
    connected, and then the wallet client is one for that same account.
    This holds at the start and is kept by a whole call of
    [connectWallet] against any provider, by [disconnectWallet], by the
    reaction to [accountsChanged] and by the check on mount. *)
Theorem connection_invariant :
  bound disconnected
  ∧ ∀ s, bound s →
      (∀ (o : Oracle) h, bound (run o (connectWallet h) s []).1.1)
      ∧ bound (after disconnectWallet s)
      ∧ (∀ p accounts,
           bound (after (handleAccountsChanged p (address s) accounts) s))
      ∧ (∀ p o, bound (after (checkConnection_resume p o) s)).
Proof.
  split; [done|]. intros s Hs. split; [|split; [|split]].
  - intros o h.
    destruct (connectWallet_final o h s)
      as [_ [(p & a & _ & ->)|(message & ->)]]; [done|].
    unfold bound in *. simpl. done.
  - done.
  - intros p accounts. unfold after, handleAccountsChanged.
    destruct accounts as [|first others]; [done|].
    case_decide; [done|]. done.
  - intros p [e|[|a others]]; done.
Qed.

(** X24.  [isConnecting] is one flag, not a count: when a call is
    started while others are suspended and its authorization request is
    then rejected, that call lowers the flag although the earlier calls
    are still in flight. *)
Theorem flag_lowered_by_first_finisher (h : Host) (p : Provider)
  (sys : System) (reply : Reply) (e : Thrown) :
  selected (window_ethereum h) = Some p →
  reply _ eth_requestAccounts = inl e →
  isConnecting (ui (call h sys)) = true
  ∧ isConnecting (ui (settle (length (inflight sys)) reply (call h sys)))
    = false
  ∧ inflight (settle (length (inflight sys)) reply (call h sys))
    = inflight sys.
Proof.
  intros Hsel Hreply. pick_provider h Hsel.
  all: unfold call, settle; simpl.
  all: rewrite (list_lookup_middle (inflight sys) [] _
                  (length (inflight sys)) eq_refl).
  all: simpl; rewrite Hreply; simpl.
  all: rewrite take_app_length, drop_ge by (rewrite length_app; simpl; lia).
  all: destruct (user_rejection e) as [thrown|[|]];
    [| |destruct (truthy_message e)]; simpl; rewrite ?app_nil_r; done.
Qed.

End WalletExtras.

(* ===================================================================== *)
(** * Further concrete runs *)
(* ===================================================================== *)

Section FurtherRuns.
Import Server WalletContext.

(** *** Server *)

Lemma sample_store_well_formed : well_formed sample_store.
Proof.
  intros k s Hk. simpl in Hk.
  apply lookup_singleton_Some in Hk as [<- <-]. simpl. eauto.
Qed.

Lemma sample_store_ordered : ordered sample_store.
Proof.
  split; [apply NoDup_singleton|]. intros k. simpl.
  rewrite list_elem_of_singleton. split.
  - intros ->. rewrite lookup_singleton_eq. eauto.
  - intros [s Hs]. by apply lookup_singleton_Some in Hs as [<- _].
Qed.

(** The grant bought first is walked first and gets the first reading:
    with the second purchase read after its expiry, the listing shows the
    first purchase only. *)
Lemma listing_walks_insertion_order :
  order (handle_all sample_config sample_two_purchases initial) = ["b"; "a"]
  ∧ ActiveView.id <$>
      get_sessions late_after_first
        (handle_all sample_config sample_two_purchases initial) = ["b"]
  ∧ ActiveView.id <$>
      get_sessions (fun _ => 0)
        (handle_all sample_config sample_two_purchases initial) = ["b"; "a"].
Proof. vm_compute. repeat split. Qed.


Lemma purchase_then_validate_witness :
  ∃ r st',
    purchase onetime (Some sample_body) "S" 0 initial = (inr r, st')
    ∧ outcome (get_session 10 (PurchaseResponse.sessionId r) st').1
      = Some Valid.
Proof.
  eexists _, _. split; [vm_compute; reflexivity|].
  refine (proj1 (proj1 (purchase_then_validate onetime (Some sample_body)
                          "S" 0 10 initial _ _ _) _));
    [vm_compute; reflexivity|simpl; lia].
Defined.

Lemma purchase_provenance_witness :
  ∃ r st',
    purchase hour24 (Some sample_body) "T" 0 initial = (inr r, st')
    ∧ ∃ s e,
        sessions st' !! PurchaseResponse.sessionId r = Some s
        ∧ last (payments st') = Some e
        ∧ PaymentRecord.walletAddress e = Session.walletAddress s.
Proof.
  eexists _, _. split; [vm_compute; reflexivity|].
  destruct (purchase_provenance hour24 (Some sample_body) "T" 0 initial
              _ _ ltac:(vm_compute; reflexivity))
    as (s & e & Hs & He & _ & _ & _ & _ & Hw & _).
  exists s, e. split; [exact Hs|]. split; [exact He|exact Hw].
Defined.

Lemma consumed_grant_not_listed_witness :
  (sessions sample_store !! "S" = Some sample_onetime
   ∧ Session.type sample_onetime = onetime
   ∧ ValidateResponse.valid (get_session 0 "S" sample_store).1 = true
   ∧ "S" ∉ purchased sample_two_purchases)
  ∧ active_view sample_onetime ∈ get_sessions (fun _ => 0) sample_store
  ∧ ∀ v, v ∈ get_sessions (fun _ => 1)
               (handle_all sample_config sample_two_purchases
                  (get_session 0 "S" sample_store).2) →
         ActiveView.id v ≠ "S".
Proof.
  assert ("S" ∉ purchased sample_two_purchases) as Hfresh.
  { vm_compute. intros H. inversion H as [|? ? ? H1]; subst.
    inversion H1 as [|? ? ? H2]; subst. inversion H2. }
  split; [split; [reflexivity|split; [reflexivity|split;
    [reflexivity|exact Hfresh]]]|].
  destruct (consumed_grant_not_listed 0 "S" sample_store sample_onetime
              sample_store_well_formed sample_store_ordered
              eq_refl eq_refl eq_refl) as [Hbefore Hafter].
  split; [exact Hbefore|].
  intros v. apply (Hafter sample_config sample_two_purchases _ v Hfresh).
Defined.

Lemma record_all_keeps_newest_witness :
  (length (replicate 100 sample_payment) ≤ 100)%nat
  ∧ length (record_all [sample_payment; sample_payment]
              (replicate 100 sample_payment))
    = min 100 (length (replicate 100 sample_payment)
               + length [sample_payment; sample_payment]).
Proof.
  assert (length (replicate 100 sample_payment) ≤ 100)%nat as Hl
    by (vm_compute; lia).
  split; [exact Hl|].
  apply (proj2 (record_all_keeps_newest [sample_payment; sample_payment]
                  (replicate 100 sample_payment) Hl)).
Defined.

Lemma recent_payments_newest_first_witness :
  length (get_payments
            {| sessions := ∅; payments := replicate 30 sample_payment;
               order := [] |})
  = min 25 (length (replicate 30 sample_payment)).
Proof.
  apply (proj1 (proj2 (recent_payments_newest_first
                         {| sessions := ∅;
                            payments := replicate 30 sample_payment;
                            order := [] |}))).
Defined.

(** *** Wallet connector *)

Lemma authorization_refused_witness :
  selected (window_ethereum wallet_page) = Some 0%nat
  ∧ error (run (scripted (inl user_rejected) (inr "0x1") (inr ()) (inr ()))
             (connectWallet wallet_page) disconnected []).1.1
    = Some "用户取消了连接请求".
Proof.
  split; [reflexivity|].
  rewrite (proj1 (proj2 (authorization_refused
                    (scripted (inl user_rejected) (inr "0x1") (inr ())
                       (inr ()))
                    wallet_page 0%nat user_rejected disconnected eq_refl
                    (fun _ => eq_refl)))).
  reflexivity.
Defined.

(** Rejections on which the [catch] clauses themselves throw: what is
    shown is the message of the [TypeError]. *)
Lemma rejections_that_throw_in_catch :
  error (run (scripted (inl null_rejection) (inr "0x1") (inr ()) (inr ()))
           (connectWallet wallet_page) disconnected []).1.1
    = Some "Cannot read properties of null (reading 'code')"
  ∧ error (run (scripted (inl numeric_message) (inr "0x1") (inr ())
                  (inr ()))
             (connectWallet wallet_page) disconnected []).1.1
    = Some "requestError.message?.includes is not a function"
  ∧ error (run (scripted (inr ["0xabc"]) (inr "0x1") (inl null_rejection)
                  (inr ()))
             (connectWallet wallet_page) disconnected []).1.1
    = Some "Cannot read properties of null (reading 'code')"
  ∧ error (run (scripted (inr ["0xabc"]) (inr "0x1")
                  (inl unrecognized_chain) (inl null_rejection))
             (connectWallet wallet_page) disconnected []).1.1
    = Some "Cannot read properties of null (reading 'code')".
Proof. vm_compute. repeat split. Qed.

Lemma no_accounts_found_witness :
  selected (window_ethereum wallet_page) = Some 0%nat
  ∧ (run (scripted (inr []) (inr "0x1") (inr ()) (inr ()))
       (connectWallet wallet_page) disconnected []).1.1
    = failed_with "未找到账户，请在钱包中创建或导入账户" disconnected.
Proof.
  split; [reflexivity|].
  apply (no_accounts_found
           (scripted (inr []) (inr "0x1") (inr ()) (inr ()))
           wallet_page 0%nat disconnected eq_refl (fun _ => eq_refl)).
Defined.

Lemma connects_without_switch_witness :
  selected (window_ethereum crowded_page) = Some 7%nat
  ∧ (run (scripted (inr ["0xabc"; "0xdef"]) (inr monadTestnetChainIdHex)
            (inr ()) (inr ()))
       (connectWallet crowded_page) disconnected []).1.1
    = connected_to 7%nat "0xabc".
Proof.
  split; [reflexivity|].
  apply (connects_without_switch
           (scripted (inr ["0xabc"; "0xdef"]) (inr monadTestnetChainIdHex)
              (inr ()) (inr ()))
           crowded_page 7%nat "0xabc" ["0xdef"] disconnected eq_refl
           (fun _ => eq_refl) (fun _ => eq_refl)).
Defined.

Lemma chain_read_failure_witness :
  selected (window_ethereum wallet_page) = Some 0%nat
  ∧ (run (scripted (inr ["0xabc"]) (inl (StringValue "offline"))
            (inr ()) (inr ()))
       (connectWallet wallet_page) disconnected []).1.1
    = failed_with "无法获取当前网络信息" disconnected.
Proof.
  split; [reflexivity|].
  apply (chain_read_failure
           (scripted (inr ["0xabc"]) (inl (StringValue "offline"))
              (inr ()) (inr ()))
           wallet_page 0%nat "0xabc" [] (StringValue "offline") disconnected
           eq_refl (fun _ => eq_refl) (fun _ => eq_refl)).
Defined.

Lemma switch_refused_witness :
  (selected (window_ethereum wallet_page) = Some 0%nat
   ∧ "0x1" ≠ monadTestnetChainIdHex
   ∧ code_is 4902 user_rejected = false)
  ∧ error (run (scripted (inr ["0xabc"]) (inr "0x1") (inl user_rejected)
                  (inr ()))
             (connectWallet wallet_page) disconnected []).1.1
    = Some "用户取消了切换网络请求".
Proof.
  assert ("0x1" ≠ monadTestnetChainIdHex) as Hne by discriminate.
  split; [split; [reflexivity|split; [exact Hne|reflexivity]]|].
  rewrite (proj2 (switch_refused
                    (scripted (inr ["0xabc"]) (inr "0x1")
                       (inl user_rejected) (inr ()))
                    wallet_page 0%nat "0xabc" "0x1" [] user_rejected
                    disconnected eq_refl Hne (fun _ => eq_refl)
                    (fun _ => eq_refl) (fun _ => eq_refl) eq_refl)).
  reflexivity.
Defined.

Lemma registration_refused_witness :
  (selected (window_ethereum wallet_page) = Some 0%nat
   ∧ "0x1" ≠ monadTestnetChainIdHex
   ∧ code_is 4902 unrecognized_chain = true)
  ∧ error (run (scripted (inr ["0xabc"]) (inr "0x1")
                  (inl unrecognized_chain) (inl user_rejected))
             (connectWallet wallet_page) disconnected []).1.1
    = Some "用户取消了添加网络请求".
Proof.
  assert ("0x1" ≠ monadTestnetChainIdHex) as Hne by discriminate.
  split; [split; [reflexivity|split; [exact Hne|reflexivity]]|].
  rewrite (proj2 (registration_refused
                    (scripted (inr ["0xabc"]) (inr "0x1")
                       (inl unrecognized_chain) (inl user_rejected))
                    wallet_page 0%nat "0xabc" "0x1" [] unrecognized_chain
                    user_rejected disconnected eq_refl Hne
                    (fun _ => eq_refl) (fun _ => eq_refl)
                    (fun _ => eq_refl) eq_refl (fun _ => eq_refl))).
  reflexivity.
Defined.

Lemma negotiation_connects_witness :
  (selected (window_ethereum wallet_page) = Some 0%nat
   ∧ "0x1" ≠ monadTestnetChainIdHex)
  ∧ (run (scripted (inr ["0xabc"]) (inr "0x1") (inr ()) (inr ()))
       (connectWallet wallet_page) disconnected []).1.1
    = connected_to 0%nat "0xabc".
Proof.
  assert ("0x1" ≠ monadTestnetChainIdHex) as Hne by discriminate.
  split; [split; [reflexivity|exact Hne]|].
  apply (proj1 (negotiation_connects
                  (scripted (inr ["0xabc"]) (inr "0x1") (inr ()) (inr ()))
                  wallet_page 0%nat "0xabc" "0x1" [] disconnected eq_refl
                  Hne (fun _ => eq_refl) (fun _ => eq_refl))
           (fun _ => eq_refl)).
Defined.

Lemma no_usable_provider_witness :
  (window_ethereum empty_array_page ≠ Undefined
   ∧ selected (window_ethereum empty_array_page) = None)
  ∧ error (run unknown_chain_wallet (connectWallet empty_array_page)
             disconnected []).1.1
    = Some ("连接失败: " +:+ v8_message).
Proof.
  assert (window_ethereum empty_array_page ≠ Undefined) as Hdef
    by discriminate.
  split; [split; [exact Hdef|reflexivity]|].
  rewrite (proj2 (no_usable_provider unknown_chain_wallet empty_array_page
                    disconnected Hdef eq_refl)).
  reflexivity.
Defined.

Lemma accounts_changed_witness :
  address (connected_to 0%nat "0xabc") ≠ Some "0xdef"
  ∧ address (after (handleAccountsChanged 0%nat
                      (address (connected_to 0%nat "0xabc"))
                      ["0xdef"; "0xabc"])
               (connected_to 0%nat "0xabc"))
    = Some "0xdef".
Proof.
  assert (address (connected_to 0%nat "0xabc") ≠ Some "0xdef") as Hne
    by discriminate.
  split; [exact Hne|].
  destruct (accounts_changed 0%nat ["0xdef"; "0xabc"]
              (connected_to 0%nat "0xabc")) as (_ & _ & _ & _ & _ & Hnew).
  rewrite (Hnew "0xdef" ["0xabc"] eq_refl Hne). reflexivity.
Defined.

Lemma check_on_mount_witness :
  selected (window_ethereum crowded_page) = Some 7%nat
  ∧ checkConnection_start crowded_page = CheckAsks 7%nat.
Proof.
  split; [reflexivity|].
  apply (proj1 (check_on_mount crowded_page 7%nat disconnected)).
  reflexivity.
Defined.

Lemma connection_invariant_witness :
  bound disconnected
  ∧ bound (run unknown_chain_wallet (connectWallet wallet_page)
             disconnected []).1.1.
Proof.
  split; [apply (proj1 connection_invariant)|].
  apply (proj2 connection_invariant disconnected
           (proj1 connection_invariant)).
Defined.

Lemma flag_lowered_by_first_finisher_witness :
  (selected (window_ethereum wallet_page) = Some 0%nat
   ∧ length (inflight (call wallet_page fresh)) = 1%nat)
  ∧ isConnecting
      (ui (settle (length (inflight (call wallet_page fresh)))
             (scripted (inl user_rejected) (inr "0x1") (inr ()) (inr ())
                [] 0%nat)
             (call wallet_page (call wallet_page fresh)))) = false
  ∧ length
      (inflight
         (settle (length (inflight (call wallet_page fresh)))
            (scripted (inl user_rejected) (inr "0x1") (inr ()) (inr ())
               [] 0%nat)
            (call wallet_page (call wallet_page fresh)))) = 1%nat.
Proof.
  split; [split; reflexivity|].
  destruct (flag_lowered_by_first_finisher wallet_page 0%nat
              (call wallet_page fresh)
              (scripted (inl user_rejected) (inr "0x1") (inr ()) (inr ())
                 [] 0%nat)
              user_rejected eq_refl eq_refl) as (_ & Hflag & Hrest).
  split; [exact Hflag|]. rewrite Hrest. reflexivity.
Defined.

End FurtherRuns.
